(** * Project Manager extension: aggregation, filtering and path portability

    A shallow embedding of [src/extension.ts].  JavaScript strings are
    modelled as [string] (a sequence of code units), arrays as lists,
    objects that are mutated in place as cells of a store, promises by
    their eventual outcome, and everything the extension obtains from its
    host (home directory, workspace root, file system, configuration,
    locators) as the fields of a [Host] record. *)

From Stdlib Require Import ZArith Ascii String.
From stdpp Require Import base option list gmap strings.

Local Open Scope Z_scope.
Local Open Scope string_scope.
Local Open Scope list_scope.

(** ** The string built-ins the extension calls *)

Module JS.

(** The character [\], written [\\] in a JavaScript literal, and the
    strings made of one and of two of them. *)
Definition backslash : ascii := "092"%char.
Definition oneBackslash : string := String backslash EmptyString.
Definition twoBackslashes : string := String backslash oneBackslash.

(** [String.prototype.indexOf]: position of the first occurrence of
    [needle] at or after the current position, [-1] when there is none. *)
Fixpoint indexOf_from (needle s : string) (i : Z) : Z :=
  if String.prefix needle s then i
  else match s with
       | EmptyString => -1
       | String _ s' => indexOf_from needle s' (i + 1)
       end.

Definition indexOf (s needle : string) : Z := indexOf_from needle s 0.

(** [String.prototype.lastIndexOf]. *)
Fixpoint lastIndexOf_from (needle s : string) (i best : Z) : Z :=
  let best' := if String.prefix needle s then i else best in
  match s with
  | EmptyString => best'
  | String _ s' => lastIndexOf_from needle s' (i + 1) best'
  end.

Definition lastIndexOf (s needle : string) : Z :=
  lastIndexOf_from needle s 0 (-1).

Fixpoint drop_chars (n : nat) (s : string) : string :=
  match n, s with
  | S k, String _ s' => drop_chars k s'
  | _, _ => s
  end.

(** [String.prototype.substr(start)] for a non-negative [start]. *)
Definition substr (s : string) (start : Z) : string :=
  drop_chars (Z.to_nat start) s.

(** The first occurrence of [pat] in [s]: the text before it and the
    text after it. *)
Fixpoint splitAtFirst (pat s : string) : option (string * string) :=
  if String.prefix pat s then Some (EmptyString, drop_chars (String.length pat) s)
  else match s with
       | EmptyString => None
       | String c s' =>
           match splitAtFirst pat s' with
           | Some (before, after) => Some (String c before, after)
           | None => None
           end
       end.

(** ECMAScript [GetSubstitution] for a string pattern (no capture
    groups): in the replacement text [$$] stands for [$], [$&] for the
    matched text, [$`] for the text before the match and [$'] for the
    text after it; every other [$] is literal. *)
Fixpoint GetSubstitution (matched before after template : string) : string :=
  match template with
  | EmptyString => EmptyString
  | String c rest =>
      if Ascii.eqb c "$" then
        match rest with
        | EmptyString => String c EmptyString
        | String d rest' =>
            if Ascii.eqb d "$" then
              String "$" (GetSubstitution matched before after rest')
            else if Ascii.eqb d "&" then
              matched +:+ GetSubstitution matched before after rest'
            else if Ascii.eqb d "`" then
              before +:+ GetSubstitution matched before after rest'
            else if Ascii.eqb d "'" then
              after +:+ GetSubstitution matched before after rest'
            else String c (GetSubstitution matched before after rest)
        end
      else String c (GetSubstitution matched before after rest)
  end.

(** [String.prototype.replace] with a string pattern and a string
    replacement: only the first occurrence is replaced. *)
Definition replace (s pat replacement : string) : string :=
  match splitAtFirst pat s with
  | None => s
  | Some (before, after) =>
      before +:+ GetSubstitution pat before after replacement +:+ after
  end.

(** [String.prototype.split] with a string separator.  [skip] counts the
    code units of a matched separator that are still to be passed over;
    the head of the result is the piece being read. *)
Fixpoint split_from (sep : string) (skip : nat) (s : string) : list string :=
  match s with
  | EmptyString => [EmptyString]
  | String c s' =>
      match skip with
      | S k => split_from sep k s'
      | O =>
          if String.prefix sep s
          then EmptyString :: split_from sep (Nat.pred (String.length sep)) s'
          else match split_from sep 0 s' with
               | piece :: pieces => String c piece :: pieces
               | [] => [String c EmptyString]
               end
      end
  end.

Fixpoint chars (s : string) : list string :=
  match s with
  | EmptyString => []
  | String c s' => String c EmptyString :: chars s'
  end.

Definition split (s sep : string) : list string :=
  match sep with
  | EmptyString => chars s
  | _ => split_from sep 0 s
  end.

(** [Array.prototype.join]. *)
Fixpoint join (pieces : list string) (sep : string) : string :=
  match pieces with
  | [] => EmptyString
  | [piece] => piece
  | piece :: rest => piece +:+ sep +:+ join rest sep
  end.

(** Truthiness of a value that is a string or [undefined]. *)
Definition truthy (v : option string) : bool :=
  match v with
  | Some (String _ _) => true
  | _ => false
  end.

(** [toLowerCase] restricted to the ASCII letters; used to run the
    model on concrete inputs. *)
Definition lower_ascii (c : ascii) : ascii :=
  let n := nat_of_ascii c in
  if ((65 <=? n)%nat && (n <=? 90)%nat)%bool then ascii_of_nat (n + 32) else c.

Fixpoint toLowerCase_ascii (s : string) : string :=
  match s with
  | EmptyString => EmptyString
  | String c s' => String (lower_ascii c) (toLowerCase_ascii s')
  end.

End JS.

(** ** Data model *)

(** An entry of the pick list: a JavaScript object with the fields
    [label], [description] (the location) and, optionally, [detail]. *)
Record Item := mkItem {
  label : string;
  description : string;
  detail : option string
}.

#[global] Instance Item_eq_dec : EqDecision Item.
Proof. solve_decision. Defined.

(** What a locator reports for one discovered root. *)
Record DirInfo := mkDirInfo {
  fullPath : string;
  name : string
}.

(** [const enum ProjectsSource]. *)
Inductive ProjectsSource := Projects | VSCode | Git | Svn.

#[global] Instance ProjectsSource_eq_dec : EqDecision ProjectsSource.
Proof. solve_decision. Defined.

(** [ProjectsSourceSet] is an array of sources; [indexOf] on it. *)
Fixpoint sources_indexOf_from (sources : list ProjectsSource) (x : ProjectsSource) (i : Z) : Z :=
  match sources with
  | [] => -1
  | y :: rest => if decide (y = x) then i else sources_indexOf_from rest x (i + 1)
  end.

Definition sources_indexOf (sources : list ProjectsSource) (x : ProjectsSource) : Z :=
  sources_indexOf_from sources x 0.

(** The outcome of evaluating an expression: a value or a thrown error. *)
Inductive Completion (A : Type) :=
  | Normal (a : A)
  | Throw (reason : string).
Arguments Normal {A} a.
Arguments Throw {A} reason.

(** A promise, described by how it ends: fulfilled or rejected after some
    number of turns of the event loop, or never settled. *)
Inductive Promise (A : Type) :=
  | Fulfilled (turns : nat) (value : A)
  | Rejected (turns : nat) (reason : string)
  | Pending.
Arguments Fulfilled {A} turns value.
Arguments Rejected {A} turns reason.
Arguments Pending {A}.

Definition delay {A} (n : nat) (p : Promise A) : Promise A :=
  match p with
  | Fulfilled t v => Fulfilled (n + t) v
  | Rejected t r => Rejected (n + t) r
  | Pending => Pending
  end.

(** [p.then(onFulfilled)] with no rejection handler: a rejection is passed
    on, and the handler's own promise is adopted. *)
Definition then_ {A B} (p : Promise A) (onFulfilled : A -> Promise B) : Promise B :=
  match p with
  | Fulfilled t v => delay t (onFulfilled v)
  | Rejected t r => Rejected t r
  | Pending => Pending
  end.

Definition promise_value {A} (p : Promise A) : option A :=
  match p with
  | Fulfilled _ v => Some v
  | _ => None
  end.

(** The store of entry objects: arrays hold references into it. *)
Abbreviation Store := (gmap nat Item).

(** A saved project, as the catalog keeps it. *)
Record Project := mkProject {
  p_name : string;
  p_rootPath : string;
  p_group : string
}.

(** Everything the extension reads from its host. *)
Record Host := mkHost {
  homeDir : string;                          (* os.homedir() *)
  platform : string;                         (* process.platform *)
  rootPath : option string;                  (* vscode.workspace.rootPath *)
  existsSync : string -> bool;               (* fs.existsSync *)
  toLowerCase : string -> string;            (* String.prototype.toLowerCase *)
  showProjectNameInStatusBar : bool;         (* configuration *)
  openInNewWindow : bool;                    (* configuration, default true *)
  sortList : string;                         (* configuration, default "Name" *)
  (* the three locators' [locateProjects] on their configured base folders *)
  vscLocateProjects : Completion (Promise (list DirInfo));
  gitLocateProjects : Completion (Promise (list DirInfo));
  svnLocateProjects : Completion (Promise (list DirInfo));
  (* ./stack: StringStack.push and StringStack.toString *)
  stack_push : string -> list string -> list string;
  stack_toString : list string -> string;
  (* ./sorter: ProjectsSorter.SortItemsByCriteria *)
  SortItemsByCriteria : Store -> list nat -> string -> list string -> list nat
}.

(** ** The catalog store and the recency stack *)

(** The class [ProjectStorage] of [./storage] is not among the sources;
    its operations are modelled from the spec's description of the
    catalog: a sequence of saved projects whose labels identify them. *)
Module ProjectStorage.

Definition has_name (wanted : string) (p : Project) : bool :=
  String.eqb (p_name p) wanted.

(** Modelled from the spec: [exists], the lookup by label, which is missing
    from the sources. *)
Definition exists_ (wanted : string) (projectList : list Project) : bool :=
  existsb (has_name wanted) projectList.

(** Modelled from the spec: [push], the insertion of a new entry, which is
    missing from the sources; the entry goes to the end of the sequence. *)
Definition push (n root group : string) (projectList : list Project) : list Project :=
  projectList ++ [mkProject n root group].

(** Modelled from the spec: [updateRootPath], which is missing from the
    sources; it replaces the root path of the entry with the given label. *)
Definition updateRootPath (n root : string) (projectList : list Project) : list Project :=
  map (fun p => if has_name n p then mkProject (p_name p) root (p_group p) else p)
      projectList.

(** Modelled from the spec: [existsWithRootPath], the lookup by root, which
    is missing from the sources. *)
Definition existsWithRootPath (root : string) (projectList : list Project) : option Project :=
  find (fun p => String.eqb (p_rootPath p) root) projectList.

(** Modelled from the spec: [map], which is missing from the sources; it
    hands out one fresh pick-list entry for each saved project, in order. *)
Definition map_ (projectList : list Project) : list Item :=
  map (fun p => mkItem (p_name p) (p_rootPath p) None) projectList.

End ProjectStorage.

(** ** Constants of the extension *)

Definition homePathVariable : string := "$home".
Definition MERGE_PROJECTS : bool := true.
Definition invalidPathMarker : string := "$(circle-slash) Path does not exist".

(** ** Path portability and normalisation *)

(** [path.indexOf(s) === 0], where the literal [s] denotes two
    backslashes. *)
Definition pathIsUNC (path : string) : bool :=
  Z.eqb (JS.indexOf path JS.twoBackslashes) 0.

Definition compactHomePath (host : Host) (path : string) : string :=
  if Z.eqb (JS.indexOf path (homeDir host)) 0
  then JS.replace path (homeDir host) homePathVariable
  else path.

Definition expandHomePath (host : Host) (path : string) : string :=
  if Z.eqb (JS.indexOf path homePathVariable) 0
  then JS.replace path homePathVariable (homeDir host)
  else path.

Definition normalizePath (path : string) : string :=
  let normalizedPath := path in
  if negb (pathIsUNC normalizedPath)
  then let replaceable := JS.split normalizedPath JS.oneBackslash in
       JS.join replaceable JS.twoBackslashes
  else normalizedPath.

(** ** The filter/annotate stage, on the store of entry objects *)

Definition set_description (d : string) (item : Item) : Item :=
  mkItem (label item) d (detail item).

Definition set_detail (d : option string) (item : Item) : Item :=
  mkItem (label item) (description item) d.

(** [item.description = expandHomePath(item.description)] on the object
    behind [r]. *)
Definition expandItem (host : Host) (sigma : Store) (r : nat) : Store :=
  alter (fun item => set_description (expandHomePath host (description item)) item) r sigma.

(** [items.map(item => { ...; return item; })]: the objects are updated in
    place and the new array holds the same references. *)
Definition expandHomePaths (host : Host) (sigma : Store) (items : list nat) : Store * list nat :=
  (foldl (expandItem host) sigma items, items).

(** The callback of [items.filter] in [removeRootPath]. *)
Definition differsFromRoot (host : Host) (sigma : Store) (root : string) (r : nat) : bool :=
  match sigma !! r with
  | Some value =>
      negb (String.eqb (toLowerCase host (description value)) (toLowerCase host root))
  | None => true
  end.

Definition removeRootPath (host : Host) (sigma : Store) (items : list nat) : list nat :=
  if negb (JS.truthy (rootPath host)) then items
  else match rootPath host with
       | Some root => List.filter (differsFromRoot host sigma root) items
       | None => items
       end.

(** The body of the [for ... of] loop in [indicateInvalidPaths]. *)
Definition flagInvalid (host : Host) (sigma : Store) (r : nat) : Store :=
  match sigma !! r with
  | Some element =>
      if negb (JS.truthy (detail element)) && negb (existsSync host (description element))
      then <[r := set_detail (Some invalidPathMarker) element]> sigma
      else sigma
  | None => sigma
  end.

Definition indicateInvalidPaths (host : Host) (sigma : Store) (items : list nat) : Store * list nat :=
  (foldl (flagInvalid host) sigma items, items).

(** The three steps of [sortProjectList] that come before the sorter. *)
Definition filterAnnotate (host : Host) (sigma : Store) (items : list nat) : Store * list nat :=
  let '(sigma1, itemsToShow) := expandHomePaths host sigma items in
  let itemsToShow := removeRootPath host sigma1 itemsToShow in
  indicateInvalidPaths host sigma1 itemsToShow.

Definition sortProjectList (host : Host) (aStack : list string) (sigma : Store) (items : list nat)
  : Store * list nat :=
  let '(sigma', itemsToShow) := filterAnnotate host sigma items in
  (sigma', SortItemsByCriteria host sigma' itemsToShow (sortList host) aStack).

(** The entries an array of references denotes. *)
Definition readItems (sigma : Store) (items : list nat) : list Item :=
  omap (fun r => sigma !! r) items.

(** Freshly created objects, one cell each. *)
Definition allocate (objects : list Item) : Store * list nat :=
  (map_seq 0 objects, seq 0 (length objects)).

(** ** Aggregation: the promise chain of [listProjects] *)

(** [new Promise((resolve, reject) => { located.then(v => resolve(k v)); })].
    The executor never calls [reject] and gives [then] no rejection
    handler: when the located promise rejects, the new promise is never
    settled; when the call itself throws, the constructor rejects it. *)
Definition resolvedWith {A B} (located : Completion (Promise A)) (k : A -> B) : Promise B :=
  match located with
  | Throw reason => Rejected 0 reason
  | Normal (Fulfilled turns v) => Fulfilled turns (k v)
  | Normal (Rejected _ _) => Pending
  | Normal Pending => Pending
  end.

Definition getProjects (itemsSorted : list Item) (sources : list ProjectsSource)
  : Promise (list Item) :=
  if Z.eqb (sources_indexOf sources Projects) (-1)
  then Fulfilled 0 []
  else Fulfilled 0 itemsSorted.

Definition vscodeItem (item : DirInfo) : Item :=
  mkItem ("$(file-code) " +:+ name item) (fullPath item) None.

Definition gitItem (item : DirInfo) : Item :=
  mkItem ("$(git-branch) " +:+ name item) (fullPath item) None.

Definition svnItem (item : DirInfo) : Item :=
  mkItem ("$(zap) " +:+ name item) (fullPath item) None.

Definition getVSCodeProjects (host : Host) (itemsSorted : list Item) (merge : bool)
  : Promise (list Item) :=
  resolvedWith (vscLocateProjects host) (fun dirList =>
    let newItems := map vscodeItem dirList in
    if merge then newItems ++ itemsSorted else newItems).

Definition getGitProjects (host : Host) (itemsSorted : list Item) (merge : bool)
  : Promise (list Item) :=
  resolvedWith (gitLocateProjects host) (fun dirList =>
    let newItems := map gitItem dirList in
    if merge then newItems ++ itemsSorted else newItems).

Definition getSvnProjects (host : Host) (itemsSorted : list Item) (merge : bool)
  : Promise (list Item) :=
  resolvedWith (svnLocateProjects host) (fun dirList =>
    let newItems := map svnItem dirList in
    if merge then newItems ++ itemsSorted else newItems).

(** The chain [getProjects(...).then(...).then(...).then(...)] up to, and
    not including, the handler that sorts and shows the list. *)
Definition collectFolders (host : Host) (items : list Item) (sources : list ProjectsSource)
  : Promise (list Item) :=
  then_ (then_ (then_ (getProjects items sources)
    (fun folders =>
       if Z.eqb (sources_indexOf sources VSCode) (-1) then Fulfilled 0 folders
       else let merge := MERGE_PROJECTS in getVSCodeProjects host folders merge))
    (fun folders =>
       if Z.eqb (sources_indexOf sources Git) (-1) then Fulfilled 0 folders
       else let merge := MERGE_PROJECTS in getGitProjects host folders merge))
    (fun folders =>
       if Z.eqb (sources_indexOf sources Svn) (-1) then Fulfilled 0 folders
       else let merge := MERGE_PROJECTS in getSvnProjects host folders merge).

(** What [listProjects] puts on the screen (the handler of the user's
    selection is not part of this model). *)
Inductive Shown :=
  | InformationMessage (text : string)
  | QuickPick (sigma : Store) (entries : list nat)
  | NothingShown.

Definition listProjects (host : Host) (projectList : list Project) (aStack : list string)
    (sources : list ProjectsSource) : Shown :=
  let items := ProjectStorage.map_ projectList in
  match collectFolders host items sources with
  | Fulfilled _ folders =>
      if Nat.eqb (length folders) 0
      then InformationMessage "No projects saved yet!"
      else let '(sigma, refs) := allocate folders in
           let '(sigma', sorted) := sortProjectList host aStack sigma refs in
           QuickPick sigma' sorted
  | _ => NothingShown
  end.

(** ** Saving the current folder as a project *)

Record StatusItem := mkStatusItem {
  text : string;
  tooltip : string;
  command : string;
  visible : bool
}.

Inductive Message :=
  | InputBox (value : string)
  | WarningMessage (msg : string)
  | InfoMessage (msg : string).

(** The state that lives as long as the activated extension. *)
Record ExtState := mkExtState {
  projectList : list Project;      (* projectStorage, in memory *)
  projectsFile : list Project;     (* what projectStorage.save() last wrote *)
  aStack : list string;            (* the recency stack *)
  recent : string;                 (* globalState "recent" *)
  statusItem : option StatusItem;
  messages : list Message          (* what was shown, oldest first *)
}.

Definition show_message (m : Message) (st : ExtState) : ExtState :=
  mkExtState (projectList st) (projectsFile st) (aStack st) (recent st)
             (statusItem st) (messages st ++ [m]).

Definition set_statusItem (item : StatusItem) (st : ExtState) : ExtState :=
  mkExtState (projectList st) (projectsFile st) (aStack st) (recent st)
             (Some item) (messages st).

Definition showStatusBar (host : Host) (projectName : option string) (st : ExtState) : ExtState :=
  let showStatusConfig := showProjectNameInStatusBar host in
  match rootPath host with
  | Some (String c p) =>
      let currentProjectPath := String c p in
      if negb showStatusConfig then st
      else
        let wasVisible := match statusItem st with Some item => visible item | None => false end in
        let cmd := if openInNewWindow host then "projectManager.listProjectsNewWindow"
                   else "projectManager.listProjects" in
        let item := mkStatusItem "$(file-directory) " currentProjectPath cmd wasVisible in
        let st := set_statusItem item st in
        if JS.truthy projectName then
          let shownName := match projectName with Some n => n | None => EmptyString end in
          set_statusItem (mkStatusItem (text item +:+ shownName) (tooltip item) cmd true) st
        else if Nat.eqb (length (projectList st)) 0 then st
        else match ProjectStorage.existsWithRootPath
                     (compactHomePath host currentProjectPath) (projectList st) with
             | Some foundProject =>
                 set_statusItem
                   (mkStatusItem (text item +:+ p_name foundProject) (tooltip item) cmd true) st
             | None => st
             end
  | _ => st                              (* no folder is open *)
  end.

(** The name suggested in the input box: the last component of the root. *)
Definition suggestedName (host : Host) (wpath : string) : string :=
  if String.eqb (platform host) "win32"
  then JS.substr wpath (JS.lastIndexOf wpath JS.oneBackslash + 1)
  else JS.substr wpath (JS.lastIndexOf wpath "/" + 1).

(** [aStack.push(name); globalState.update("recent", aStack.toString())],
    then the given change of the catalog, [projectStorage.save()], the
    confirmation and the status bar. *)
Definition storeAndConfirm (host : Host) (projectName : string)
    (change : list Project -> list Project) (st : ExtState) : ExtState :=
  let stack' := stack_push host projectName (aStack st) in
  let list' := change (projectList st) in
  let st := mkExtState list' list' stack' (stack_toString host stack')
                       (statusItem st) (messages st) in
  showStatusBar host (Some projectName) (show_message (InfoMessage "Project saved!") st).

(** [saveProject]: [typed] is what the input box returns ([None] when it
    is dismissed), [option_] the title of the button chosen in the
    "already exists" message ([None] when it is dismissed). *)
Definition saveProject (host : Host) (typed option_ : option string) (st : ExtState)
  : Completion ExtState :=
  match rootPath host with
  | None => Throw "TypeError"          (* wpath.substr on undefined *)
  | Some workspaceRoot =>
      let wpath := suggestedName host workspaceRoot in
      let st := show_message (InputBox wpath) st in
      match typed with
      | None => Normal st
      | Some projectName =>
          if String.eqb projectName EmptyString
          then Normal (show_message
                         (WarningMessage "You must define a name for the project.") st)
          else
            let rootPath := compactHomePath host workspaceRoot in
            if negb (ProjectStorage.exists_ projectName (projectList st))
            then Normal (storeAndConfirm host projectName
                           (ProjectStorage.push projectName rootPath EmptyString) st)
            else
              let st := show_message (InfoMessage "Project already exists!") st in
              match option_ with
              | None => Normal st
              | Some title =>
                  if String.eqb title "Update"
                  then Normal (storeAndConfirm host projectName
                                 (ProjectStorage.updateRootPath projectName rootPath) st)
                  else Normal st
              end
      end
  end.

(** ** Definitions used to state the properties *)

(** Every backslash written twice. *)
Fixpoint doubleBackslashes (s : string) : string :=
  match s with
  | EmptyString => EmptyString
  | String c s' =>
      if Ascii.eqb c JS.backslash
      then String JS.backslash (String JS.backslash (doubleBackslashes s'))
      else String c (doubleBackslashes s')
  end.

(** A replacement text in which no [$] introduces a substitution pattern. *)
Fixpoint isLiteralTemplate (template : string) : bool :=
  match template with
  | EmptyString => true
  | String c rest =>
      if Ascii.eqb c "$" then
        match rest with
        | EmptyString => true
        | String d _ =>
            negb (Ascii.eqb d "$" || Ascii.eqb d "&" || Ascii.eqb d "`" || Ascii.eqb d "'")
            && isLiteralTemplate rest
        end
      else isLiteralTemplate rest
  end.

(** The locator call and the decoration that belong to a discovery source. *)
Definition locateProjectsOf (host : Host) (source : ProjectsSource)
  : Completion (Promise (list DirInfo)) :=
  match source with
  | Projects => Normal (Fulfilled 0 [])
  | VSCode => vscLocateProjects host
  | Git => gitLocateProjects host
  | Svn => svnLocateProjects host
  end.

Definition decorationOf (source : ProjectsSource) : DirInfo -> Item :=
  match source with
  | Projects => fun item => mkItem (name item) (fullPath item) None
  | VSCode => vscodeItem
  | Git => gitItem
  | Svn => svnItem
  end.

(** The function of the extension that queries a discovery source. *)
Definition getSourceProjects (host : Host) (source : ProjectsSource)
  : list Item -> bool -> Promise (list Item) :=
  match source with
  | Projects => fun itemsSorted _ => Fulfilled 0 itemsSorted
  | VSCode => getVSCodeProjects host
  | Git => getGitProjects host
  | Svn => getSvnProjects host
  end.

(** One handler of the chain in [listProjects]: pass the sequence on when
    the source is not enabled, otherwise ask the source. *)
Definition foldStep (host : Host) (sources : list ProjectsSource) (source : ProjectsSource)
    (folders : list Item) : Promise (list Item) :=
  if Z.eqb (sources_indexOf sources source) (-1) then Fulfilled 0 folders
  else let merge := MERGE_PROJECTS in getSourceProjects host source folders merge.

(** What a discovery source adds to the running sequence: nothing when it
    is not enabled, its decorated entries when its call is fulfilled, and
    no sequence at all when the call fails or never settles. *)
Definition contribution (host : Host) (sources : list ProjectsSource) (source : ProjectsSource)
  : option (list Item) :=
  if bool_decide (source ∈ sources) then
    match locateProjectsOf host source with
    | Normal (Fulfilled _ dirList) => Some (map (decorationOf source) dirList)
    | _ => None
    end
  else Some [].

(** The locator call did not produce a list. *)
Definition locateFails (host : Host) (source : ProjectsSource) : Prop :=
  match locateProjectsOf host source with
  | Normal (Fulfilled _ _) => False
  | _ => True
  end.

(** An entry after its location was expanded. *)
Definition expandedItem (host : Host) (item : Item) : Item :=
  set_description (expandHomePath host (description item)) item.

(** An entry after the validity check: flagged when it has no detail and
    its location does not exist, and as it was otherwise. *)
Definition checkedItem (host : Host) (element : Item) : Item :=
  if negb (JS.truthy (detail element)) && negb (existsSync host (description element))
  then set_detail (Some invalidPathMarker) element
  else element.

(** Equality of two locations up to case, as the extension compares them. *)
Definition sameIgnoringCase (host : Host) (a b : string) : Prop :=
  toLowerCase host a = toLowerCase host b.

(** The entry behind [r] is located at [root], up to case. *)
Definition locatedAt (host : Host) (sigma : Store) (root : string) (r : nat) : Prop :=
  exists value, sigma !! r = Some value /\ sameIgnoringCase host (description value) root.

#[global] Instance locatedAt_dec host sigma root r : Decision (locatedAt host sigma root r).
Proof.
  unfold locatedAt, sameIgnoringCase.
  destruct (sigma !! r) as [value|].
  - destruct (decide (toLowerCase host (description value) = toLowerCase host root)) as [e|n].
    + left. exists value. split; [reflexivity | exact e].
    + right. intros (v & Hv & He). injection Hv as <-. contradiction.
  - right. intros (v & Hv & _). discriminate.
Defined.

(** ** Concrete hosts, to run the model *)

Module Demo.

(** A recency stack for the demonstration hosts: a pushed name moves to
    the most recent end. *)
Definition push (n : string) (stack : list string) : list string :=
  List.filter (fun m => negb (String.eqb m n)) stack ++ [n].

Definition B : DirInfo := mkDirInfo "/y" "B".

(** A Linux host with home [/home/u], the folder [/p] open, and every
    path present except [/gone]. *)
Definition host : Host :=
  mkHost "/home/u" "linux" (Some "/p")
         (fun path => negb (String.eqb path "/gone"))
         JS.toLowerCase_ascii true true "Name"
         (Normal (Fulfilled 2 [B])) (Normal (Fulfilled 1 [])) (Normal (Fulfilled 3 []))
         push (fun stack => JS.join stack ",")
         (fun _ items _ _ => items).

(** The same host with no folder open. *)
Definition hostNoRoot : Host :=
  mkHost "/home/u" "linux" None
         (fun path => negb (String.eqb path "/gone"))
         JS.toLowerCase_ascii true true "Name"
         (Normal (Fulfilled 2 [B])) (Normal (Fulfilled 1 [])) (Normal (Fulfilled 3 []))
         push (fun stack => JS.join stack ",")
         (fun _ items _ _ => items).

(** A host whose home directory is [/home/a$$b]. *)
Definition hostDollar : Host :=
  mkHost "/home/a$$b" "linux" (Some "/home/a$$b/proj")
         (fun _ => true)
         JS.toLowerCase_ascii true true "Name"
         (Normal (Fulfilled 0 [])) (Normal (Fulfilled 0 [])) (Normal (Fulfilled 0 []))
         push (fun stack => JS.join stack ",")
         (fun _ items _ _ => items).

(** A host whose Git locator rejects. *)
Definition hostGitFails : Host :=
  mkHost "/home/u" "linux" (Some "/p")
         (fun _ => true)
         JS.toLowerCase_ascii true true "Name"
         (Normal (Fulfilled 2 [B])) (Normal (Rejected 1 "EACCES")) (Normal (Fulfilled 3 []))
         push (fun stack => JS.join stack ",")
         (fun _ items _ _ => items).

Definition allSources : list ProjectsSource := [Projects; VSCode; Git; Svn].

Definition catalog : list Project := [mkProject "A" "/x" EmptyString].

Definition state : ExtState := mkExtState catalog catalog [] EmptyString None [].

Definition entries : Store :=
  map_seq 0 [mkItem "A" "/P" None; mkItem "B" "/q" None;
             mkItem "C" "/gone" None; mkItem "D" "$home/x" (Some "kept")].

End Demo.

(** ** Further functions of the extension *)


(** What the selection handler asks of the editor. *)
Inductive Action :=
  | ErrorMessage (msg : string)
  | ExecuteCommand (commandId : string)
  | OpenFolder (uri : string) (newWindow : bool)
  | NoticeMessage (msg : string).

(** The catalog and its file after [projectStorage.pop(selected)] and
    [projectStorage.save()]; [pop] belongs to [./storage] and is a
    parameter of the handler. *)
Definition removeAndSave (pop : Item -> list Project -> list Project) (selected : Item)
    (st : ExtState) : ExtState :=
  let list' := pop selected (projectList st) in
  mkExtState list' list' (aStack st) (recent st) (statusItem st) (messages st).

(** [aStack.push(selected.label)] and the update of the persisted string. *)
Definition recordUse (host : Host) (used : string) (st : ExtState) : ExtState :=
  let stack' := stack_push host used (aStack st) in
  mkExtState (projectList st) (projectsFile st) stack' (stack_toString host stack')
             (statusItem st) (messages st).

(** [onResolve], the handler of the quick pick in [listProjects]:
    [selected] is the picked entry ([None] when the pick is dismissed),
    [option_] the title of the button chosen in the invalid-path message
    ([None] when it is dismissed) and [opened] tells whether the
    [vscode.openFolder] command succeeds. *)
Definition onResolve (host : Host) (pop : Item -> list Project -> list Project)
    (forceNewWindow : bool) (selected : option Item) (option_ : option string)
    (opened : bool) (st : ExtState) : ExtState * list Action :=
  match selected with
  | None => (st, [])
  | Some selected =>
      if negb (existsSync host (description selected))
      then
        let asked :=
          [ErrorMessage "The project has an invalid path. What would you like to do?"] in
        match option_ with
        | None => (st, asked)
        | Some title =>
            if String.eqb title "Update Project"
            then (st, asked ++ [ExecuteCommand "projectManager.editProjects"])
            else (removeAndSave pop selected st, asked)
        end
      else
        let projectPath := description selected in
        let projectPath := normalizePath projectPath in
        let st := recordUse host (label selected) st in
        let uri := projectPath in        (* vscode.Uri.file(projectPath), by its path *)
        (st, OpenFolder uri (openInNewWindow host || forceNewWindow)
             :: (if opened then [] else [NoticeMessage "Could not open the project!"]))
  end.

(** ** Further definitions used to state the properties *)

Fixpoint hasBackslash (s : string) : bool :=
  match s with
  | EmptyString => false
  | String c s' => Ascii.eqb c JS.backslash || hasBackslash s'
  end.

(** The character [c] occurs in [s]. *)
Fixpoint hasChar (c : ascii) (s : string) : bool :=
  match s with
  | EmptyString => false
  | String d s' => Ascii.eqb d c || hasChar c s'
  end.

(** The filter of [removeRootPath], on an entry rather than a reference. *)
Definition listedBesideRoot (host : Host) (item : Item) : bool :=
  match rootPath host with
  | Some (String c root) =>
      negb (String.eqb (toLowerCase host (description item))
                       (toLowerCase host (String c root)))
  | _ => true
  end.

(** The stage as a function on entries: expand, drop the current root,
    check. *)
Definition stageOnEntries (host : Host) (folders : list Item) : list Item :=
  map (checkedItem host) (List.filter (listedBesideRoot host) (map (expandedItem host) folders)).

(** * Properties *)

(** ** The string built-ins on examples *)

Example indexOf_ex : JS.indexOf "/home/u/p" "/home/u" = 0 /\ JS.indexOf "x/home/u" "/home/u" = 1
  /\ JS.indexOf "abc" "z" = -1 /\ JS.indexOf "abc" EmptyString = 0.
Proof. repeat split; reflexivity. Qed.

Example replace_ex : JS.replace "a-b-c" "-" "+" = "a+b-c"
  /\ JS.replace "abc" "b" "$$" = "a$c" /\ JS.replace "abc" "b" "[$&$`$']" = "a[bac]c"
  /\ JS.replace "abc" "b" "$home" = "a$homec".
Proof. repeat split; reflexivity. Qed.

Example split_ex :
  JS.split "a\b\\c" JS.oneBackslash = ["a"; "b"; EmptyString; "c"]
  /\ JS.split EmptyString JS.oneBackslash = [EmptyString]
  /\ JS.split "a--b-" "--" = ["a"; "b-"]
  /\ JS.join ["a"; "b"; EmptyString; "c"] JS.twoBackslashes = "a\\b\\\\c".
Proof. repeat split; reflexivity. Qed.

(** ** Facts about the string built-ins *)

Section StringFacts.

Lemma prefix_app (p rest : string) : String.prefix p (p +:+ rest) = true.
Proof.
  induction p as [|c p IH]; simpl.
  - destruct rest; reflexivity.
  - destruct (ascii_dec c c) as [_|n]; [exact IH | contradiction].
Qed.

Lemma prefix_inv (p s : string) :
  String.prefix p s = true -> exists rest, s = p +:+ rest.
Proof.
  revert s. induction p as [|c p IH]; intros s H.
  - exists s. reflexivity.
  - destruct s as [|d s]; simpl in H; [discriminate|].
    destruct (ascii_dec c d) as [->|_]; [|discriminate].
    destruct (IH s H) as [rest ->]. exists rest. reflexivity.
Qed.

Lemma indexOf_from_range (needle s : string) (i : Z) :
  JS.indexOf_from needle s i = -1 \/ i <= JS.indexOf_from needle s i.
Proof.
  revert i. induction s as [|c s IH]; intros i; cbn [JS.indexOf_from].
  - destruct (String.prefix needle EmptyString); [right; lia | left; reflexivity].
  - destruct (String.prefix needle (String c s)); [right; lia|].
    destruct (IH (i + 1)) as [->|H]; [left; reflexivity | right; lia].
Qed.

(** [s.indexOf(needle) === 0] says that [s] starts with [needle]. *)
Lemma indexOf_zero (s needle : string) :
  JS.indexOf s needle = 0 <-> String.prefix needle s = true.
Proof.
  unfold JS.indexOf. split.
  - destruct s as [|c s]; cbn [JS.indexOf_from].
    + destruct (String.prefix needle EmptyString); [reflexivity | discriminate].
    + destruct (String.prefix needle (String c s)); [reflexivity|].
      intros H. change (0 + 1) with 1 in H.
      destruct (indexOf_from_range needle s 1) as [E|E]; lia.
  - intros H. destruct s as [|c s]; cbn [JS.indexOf_from]; rewrite H; reflexivity.
Qed.

Lemma drop_chars_app (p rest : string) :
  JS.drop_chars (String.length p) (p +:+ rest) = rest.
Proof.
  induction p as [|c p IH]; simpl; [destruct rest; reflexivity | exact IH].
Qed.

Lemma splitAtFirst_at_front (p s : string) :
  String.prefix p s = true ->
  JS.splitAtFirst p s = Some (EmptyString, JS.drop_chars (String.length p) s).
Proof. intros H. destruct s; cbn [JS.splitAtFirst]; rewrite H; reflexivity. Qed.

Lemma splitAtFirst_prefix (p rest : string) :
  JS.splitAtFirst p (p +:+ rest) = Some (EmptyString, rest).
Proof.
  rewrite splitAtFirst_at_front by apply prefix_app.
  rewrite drop_chars_app. reflexivity.
Qed.

(** Replacing a pattern the string starts with rewrites the front and
    nothing else. *)
Lemma replace_prefix (p rest replacement : string) :
  JS.replace (p +:+ rest) p replacement
  = JS.GetSubstitution p EmptyString rest replacement +:+ rest.
Proof. unfold JS.replace. rewrite splitAtFirst_prefix. reflexivity. Qed.

Lemma GetSubstitution_literal (matched before after template : string) :
  isLiteralTemplate template = true ->
  JS.GetSubstitution matched before after template = template.
Proof.
  induction template as [|c rest IH]; intros H; [reflexivity|].
  simpl in *. destruct (Ascii.eqb c "$").
  - destruct rest as [|d rest']; [reflexivity|].
    apply andb_true_iff in H as [Hd Hrest].
    apply negb_true_iff in Hd.
    destruct (Ascii.eqb d "$"), (Ascii.eqb d "&"), (Ascii.eqb d "`"), (Ascii.eqb d "'");
      try discriminate Hd.
    f_equal. apply IH. exact Hrest.
  - f_equal. apply IH. exact H.
Qed.

Lemma split_from_nonempty (sep : string) (skip : nat) (s : string) :
  JS.split_from sep skip s <> [].
Proof.
  revert skip. induction s as [|c s IH]; intros skip; cbn [JS.split_from]; [done|].
  destruct skip as [|k]; [|apply IH].
  destruct (String.prefix sep (String c s)); [done|].
  destruct (JS.split_from sep 0 s); done.
Qed.

Lemma join_cons_char (c : ascii) (piece : string) (pieces : list string) (sep : string) :
  JS.join (String c piece :: pieces) sep = String c (JS.join (piece :: pieces) sep).
Proof. destruct pieces; reflexivity. Qed.

Lemma join_split_backslash (s : string) :
  JS.join (JS.split_from JS.oneBackslash 0 s) JS.twoBackslashes = doubleBackslashes s.
Proof.
  induction s as [|c s IH]; [reflexivity|].
  unfold JS.oneBackslash in *.
  cbn [JS.split_from doubleBackslashes String.prefix].
  destruct (ascii_dec JS.backslash c) as [<-|Hne].
  - replace (String.prefix EmptyString s) with true by (destruct s; reflexivity).
    cbn [String.length Nat.pred].
    replace (Ascii.eqb JS.backslash JS.backslash) with true by reflexivity.
    destruct (JS.split_from (String JS.backslash EmptyString) 0 s) as [|piece pieces] eqn:E;
      [exact (False_ind _ (split_from_nonempty _ _ _ E))|].
    rewrite <- IH. reflexivity.
  - destruct (Ascii.eqb_spec c JS.backslash) as [->|_]; [contradiction|].
    destruct (JS.split_from (String JS.backslash EmptyString) 0 s) as [|piece pieces] eqn:E;
      [exact (False_ind _ (split_from_nonempty _ _ _ E))|].
    rewrite join_cons_char, IH. reflexivity.
Qed.

End StringFacts.

(** ** Path portability and normalisation *)

Section Paths.

Variable host : Host.

Lemma homePathVariable_literal : isLiteralTemplate homePathVariable = true.
Proof. reflexivity. Qed.

Lemma compactHomePath_under_home (rest : string) :
  compactHomePath host (homeDir host +:+ rest) = homePathVariable +:+ rest.
Proof.
  unfold compactHomePath.
  rewrite (proj2 (indexOf_zero _ _) (prefix_app _ _)). cbn [Z.eqb].
  rewrite replace_prefix, GetSubstitution_literal by apply homePathVariable_literal.
  reflexivity.
Qed.

Lemma expandHomePath_portable (rest : string) :
  expandHomePath host (homePathVariable +:+ rest)
  = JS.GetSubstitution homePathVariable EmptyString rest (homeDir host) +:+ rest.
Proof.
  unfold expandHomePath.
  rewrite (proj2 (indexOf_zero _ _) (prefix_app _ _)). cbn [Z.eqb].
  apply replace_prefix.
Qed.

Lemma compactHomePath_elsewhere (path : string) :
  JS.indexOf path (homeDir host) <> 0 -> compactHomePath host path = path.
Proof.
  intros H. unfold compactHomePath.
  destruct (Z.eqb_spec (JS.indexOf path (homeDir host)) 0); [contradiction | reflexivity].
Qed.

Lemma expandHomePath_elsewhere (path : string) :
  JS.indexOf path homePathVariable <> 0 -> expandHomePath host path = path.
Proof.
  intros H. unfold expandHomePath.
  destruct (Z.eqb_spec (JS.indexOf path homePathVariable) 0); [contradiction | reflexivity].
Qed.

(** When the home directory contains no substitution pattern, expanding
    a compacted path gives the path back. *)
Lemma expand_compact_literal_home (path : string) :
  isLiteralTemplate (homeDir host) = true ->
  JS.indexOf path (homeDir host) = 0 ->
  expandHomePath host (compactHomePath host path) = path.
Proof.
  intros Hlit Hat.
  apply indexOf_zero, prefix_inv in Hat as [rest ->].
  rewrite compactHomePath_under_home, expandHomePath_portable.
  rewrite GetSubstitution_literal by exact Hlit. reflexivity.
Qed.

End Paths.

(** C3 (the code departs from the claim).  On a host whose home directory
    is [/home/a$$b], the path [/home/a$$b/proj] has the home directory at
    position 0 and is compacted to [$home/proj], but expanding that gives
    [/home/a$b/proj]: [replace] reads the [$$] of the home directory as a
    substitution pattern. *)
Theorem expand_compact_dollar_home :
  JS.indexOf "/home/a$$b/proj" (homeDir Demo.hostDollar) = 0
  /\ compactHomePath Demo.hostDollar "/home/a$$b/proj" = "$home/proj"
  /\ expandHomePath Demo.hostDollar (compactHomePath Demo.hostDollar "/home/a$$b/proj")
     = "/home/a$b/proj".
Proof. repeat split; reflexivity. Qed.

(** C9.  A path that begins with two backslashes is returned unchanged by
    [normalizePath]; any other path is returned with each backslash
    written twice. *)
Theorem normalizePath_doubles_backslashes (path rest : string) :
  normalizePath (JS.twoBackslashes +:+ rest) = JS.twoBackslashes +:+ rest
  /\ ((forall tail, path <> JS.twoBackslashes +:+ tail) ->
      normalizePath path = doubleBackslashes path).
Proof.
  unfold normalizePath, pathIsUNC. split.
  - rewrite (proj2 (indexOf_zero _ _) (prefix_app JS.twoBackslashes rest)). reflexivity.
  - intros Hno.
    destruct (Z.eqb_spec (JS.indexOf path JS.twoBackslashes) 0) as [Hat|_].
    + apply indexOf_zero, prefix_inv in Hat as [tail ->].
      exfalso. exact (Hno tail eq_refl).
    + cbn [negb JS.split JS.oneBackslash]. apply join_split_backslash.
Qed.

Lemma normalizePath_doubles_backslashes_witness :
  normalizePath "C:\Users\me" = "C:\\Users\\me".
Proof.
  apply (proj2 (normalizePath_doubles_backslashes "C:\Users\me" EmptyString)).
  intros tail H. simpl in H. discriminate H.
Defined.

(** C10.  Home-directory substitution only happens at the front of a
    path: [compactHomePath] returns its argument unless the home directory
    is at index 0, [expandHomePath] returns its argument unless [$home] is
    at index 0, and when the front matches, only that first occurrence is
    rewritten: the rest of the path is kept as it is. *)
Theorem home_substitution_prefix_only (host : Host) (path rest : string) :
  (JS.indexOf path (homeDir host) <> 0 -> compactHomePath host path = path)
  /\ (JS.indexOf path homePathVariable <> 0 -> expandHomePath host path = path)
  /\ compactHomePath host (homeDir host +:+ rest) = homePathVariable +:+ rest
  /\ expandHomePath host (homePathVariable +:+ rest)
     = JS.GetSubstitution homePathVariable EmptyString rest (homeDir host) +:+ rest
  /\ (isLiteralTemplate (homeDir host) = true ->
      expandHomePath host (homePathVariable +:+ rest) = homeDir host +:+ rest).
Proof.
  split; [apply compactHomePath_elsewhere|].
  split; [apply expandHomePath_elsewhere|].
  split; [apply compactHomePath_under_home|].
  split; [apply expandHomePath_portable|].
  intros Hlit. rewrite expandHomePath_portable, GetSubstitution_literal by exact Hlit.
  reflexivity.
Qed.

Lemma home_substitution_prefix_only_witness :
  compactHomePath Demo.host "/mnt/home/u/p" = "/mnt/home/u/p"
  /\ expandHomePath Demo.host "/a/$home/p" = "/a/$home/p"
  /\ compactHomePath Demo.host "/home/u/home/u" = "$home/home/u"
  /\ expandHomePath Demo.host "$home/$home" = "/home/u/$home".
Proof.
  pose proof (home_substitution_prefix_only Demo.host "/mnt/home/u/p" "/home/u") as (Hc & _ & Hu & _).
  pose proof (home_substitution_prefix_only Demo.host "/a/$home/p" "/$home") as (_ & He & _ & _ & Hx).
  split; [apply Hc; vm_compute; discriminate|].
  split; [apply He; vm_compute; discriminate|].
  split; [exact Hu|].
  apply Hx. reflexivity.
Defined.

(** ** Aggregation *)

Section Aggregation.

Variable host : Host.

Lemma sources_indexOf_from_range (sources : list ProjectsSource) (x : ProjectsSource) (i : Z) :
  sources_indexOf_from sources x i = -1 \/ i <= sources_indexOf_from sources x i.
Proof.
  revert i. induction sources as [|y rest IH]; intros i; cbn [sources_indexOf_from].
  - left. reflexivity.
  - destruct (decide (y = x)); [right; lia|].
    destruct (IH (i + 1)) as [->|H]; [left; reflexivity | right; lia].
Qed.

Lemma sources_indexOf_from_absent (sources : list ProjectsSource) (x : ProjectsSource) (i : Z) :
  0 <= i -> (sources_indexOf_from sources x i = -1 <-> x ∉ sources).
Proof.
  revert i. induction sources as [|y rest IH]; intros i Hi; cbn [sources_indexOf_from].
  - split; [intros _; apply not_elem_of_nil | reflexivity].
  - rewrite not_elem_of_cons. destruct (decide (y = x)) as [->|Hne].
    + split; [lia | intros [Hx _]; contradiction].
    + rewrite (IH (i + 1)) by lia. split; [intros H; split; [congruence | exact H] | intros [_ H]; exact H].
Qed.

(** The test [sources.indexOf(x) === -1] is the test that [x] is not
    among the enabled sources. *)
Lemma sources_indexOf_absent (sources : list ProjectsSource) (x : ProjectsSource) :
  Z.eqb (sources_indexOf sources x) (-1) = negb (bool_decide (x ∈ sources)).
Proof.
  unfold sources_indexOf.
  pose proof (sources_indexOf_from_absent sources x 0 (Z.le_refl 0)) as H.
  destruct (Z.eqb_spec (sources_indexOf_from sources x 0) (-1)) as [E|E].
  - rewrite bool_decide_eq_false_2; [reflexivity | apply H, E].
  - rewrite bool_decide_eq_true_2; [reflexivity|].
    destruct (decide (x ∈ sources)) as [Hin|Hout]; [exact Hin|].
    exfalso. apply E, H, Hout.
Qed.

Lemma promise_value_delay {A} (n : nat) (p : Promise A) :
  promise_value (delay n p) = promise_value p.
Proof. destruct p; reflexivity. Qed.

(** The value a chained promise ends with. *)
Lemma promise_value_then {A B} (p : Promise A) (f : A -> Promise B) :
  promise_value (then_ p f) = promise_value p ≫= (fun v => promise_value (f v)).
Proof. destruct p; simpl; [apply promise_value_delay | reflexivity | reflexivity]. Qed.

Lemma promise_value_resolvedWith {A B} (located : Completion (Promise A)) (k : A -> B) :
  promise_value (resolvedWith located k)
  = match located with
    | Normal (Fulfilled _ v) => Some (k v)
    | _ => None
    end.
Proof. destruct located as [[?|?|]|]; reflexivity. Qed.

Lemma foldStep_value (sources : list ProjectsSource) (source : ProjectsSource)
    (folders : list Item) :
  source <> Projects ->
  promise_value (foldStep host sources source folders)
  = (fun found => found ++ folders) <$> contribution host sources source.
Proof.
  intros Hsrc. unfold foldStep, contribution.
  rewrite sources_indexOf_absent.
  destruct (bool_decide (source ∈ sources)); [|reflexivity].
  cbn [negb].
  destruct source; [contradiction| | |];
    cbn [getSourceProjects];
    unfold getVSCodeProjects, getGitProjects, getSvnProjects;
    rewrite promise_value_resolvedWith; cbn [locateProjectsOf decorationOf];
    match goal with |- context [match ?l with _ => _ end] => destruct l as [[?|?|]|] end;
    reflexivity.
Qed.

Lemma collectFolders_steps (items : list Item) (sources : list ProjectsSource) :
  collectFolders host items sources
  = then_ (then_ (then_ (getProjects items sources) (foldStep host sources VSCode))
                 (foldStep host sources Git))
          (foldStep host sources Svn).
Proof. reflexivity. Qed.

(** The sequence the chain ends with: each enabled source's entries in
    front of what was accumulated before it. *)
Lemma collectFolders_value (items : list Item) (sources : list ProjectsSource) :
  promise_value (collectFolders host items sources)
  = contribution host sources VSCode ≫= fun fromVSCode =>
    contribution host sources Git ≫= fun fromGit =>
    contribution host sources Svn ≫= fun fromSvn =>
    Some (fromSvn ++ fromGit ++ fromVSCode
          ++ (if bool_decide (Projects ∈ sources) then items else [])).
Proof.
  rewrite collectFolders_steps, !promise_value_then.
  unfold getProjects. rewrite sources_indexOf_absent.
  assert (promise_value
            (if negb (bool_decide (Projects ∈ sources))
             then Fulfilled 0 [] else Fulfilled 0 items)
          = Some (if bool_decide (Projects ∈ sources) then items else [])) as ->
    by (destruct (bool_decide (Projects ∈ sources)); reflexivity).
  cbn [mbind option_bind].
  rewrite foldStep_value by discriminate.
  destruct (contribution host sources VSCode) as [fromVSCode|]; [|reflexivity].
  cbn [fmap option_fmap option_map mbind option_bind].
  rewrite foldStep_value by discriminate.
  destruct (contribution host sources Git) as [fromGit|]; [|reflexivity].
  cbn [fmap option_fmap option_map mbind option_bind].
  rewrite foldStep_value by discriminate.
  destruct (contribution host sources Svn) as [fromSvn|]; [|reflexivity].
  cbn [fmap option_fmap option_map mbind option_bind].
  reflexivity.
Qed.

End Aggregation.

(** C1.  With the merge policy on, a discovery source's entries are put in
    front of the sequence accumulated so far, which follows unchanged; so
    a catalog holding A at [/x] and a source that finds B at [/y] give
    [B; A], whatever the number of turns the source takes to answer. *)
Theorem merge_puts_discovered_first (host : Host) (source : ProjectsSource)
    (accumulated : list Item) (turns : nat) (dirList : list DirInfo) :
  source <> Projects ->
  locateProjectsOf host source = Normal (Fulfilled turns dirList) ->
  getSourceProjects host source accumulated true
  = Fulfilled turns (map (decorationOf source) dirList ++ accumulated)
  /\ (dirList = [mkDirInfo "/y" "B"] ->
      promise_value (collectFolders host (ProjectStorage.map_ [mkProject "A" "/x" EmptyString])
                                    [Projects; source])
      = Some [decorationOf source (mkDirInfo "/y" "B"); mkItem "A" "/x" None]).
Proof.
  intros Hsrc Hloc. split.
  - destruct source; [contradiction| | |]; cbn [getSourceProjects locateProjectsOf] in *;
      unfold getVSCodeProjects, getGitProjects, getSvnProjects; rewrite Hloc; reflexivity.
  - intros ->. rewrite collectFolders_value. unfold contribution.
    destruct source; [contradiction| | |]; cbn [locateProjectsOf] in *;
      rewrite Hloc; reflexivity.
Qed.

Lemma merge_puts_discovered_first_witness :
  getVSCodeProjects Demo.host [mkItem "A" "/x" None] true
  = Fulfilled 2 [mkItem "$(file-code) B" "/y" None; mkItem "A" "/x" None]
  /\ promise_value (collectFolders Demo.host (ProjectStorage.map_ Demo.catalog) [Projects; VSCode])
     = Some [mkItem "$(file-code) B" "/y" None; mkItem "A" "/x" None].
Proof.
  pose proof (merge_puts_discovered_first Demo.host VSCode [mkItem "A" "/x" None] 2 [Demo.B])
    as H.
  destruct H as [H1 H2]; [discriminate | reflexivity |].
  split; [exact H1 | apply H2; reflexivity].
Defined.

(** C2.  The chain starts from the catalog's entries, or from the empty
    sequence when the catalog is not enabled, and then folds in the
    IDE-workspace source, the Git source and the Svn source, in this
    order; a source that is not enabled hands the running sequence on as
    it is, whatever its locator would answer. *)
Theorem sources_folded_in_fixed_order (host : Host) (items : list Item)
    (sources : list ProjectsSource) (fromVSCode fromGit fromSvn : list Item) :
  contribution host sources VSCode = Some fromVSCode ->
  contribution host sources Git = Some fromGit ->
  contribution host sources Svn = Some fromSvn ->
  collectFolders host items sources
  = then_ (then_ (then_ (getProjects items sources) (foldStep host sources VSCode))
                 (foldStep host sources Git))
          (foldStep host sources Svn)
  /\ promise_value (collectFolders host items sources)
     = Some (fromSvn ++ fromGit ++ fromVSCode
             ++ (if bool_decide (Projects ∈ sources) then items else []))
  /\ (Projects ∉ sources -> getProjects items sources = Fulfilled 0 [])
  /\ (forall source folders, source ∉ sources ->
        foldStep host sources source folders = Fulfilled 0 folders
        /\ contribution host sources source = Some []).
Proof.
  intros HV HG HS. split; [reflexivity|]. split.
  - rewrite collectFolders_value, HV, HG, HS. reflexivity.
  - split.
    + intros Hout. unfold getProjects. rewrite sources_indexOf_absent.
      rewrite bool_decide_eq_false_2 by exact Hout. reflexivity.
    + intros source folders Hout. unfold foldStep, contribution.
      rewrite sources_indexOf_absent, bool_decide_eq_false_2 by exact Hout.
      split; reflexivity.
Qed.

Lemma sources_folded_in_fixed_order_witness :
  promise_value (collectFolders Demo.host (ProjectStorage.map_ Demo.catalog) [Git; VSCode])
  = Some [mkItem "$(file-code) B" "/y" None].
Proof.
  apply (sources_folded_in_fixed_order Demo.host (ProjectStorage.map_ Demo.catalog)
           [Git; VSCode] [mkItem "$(file-code) B" "/y" None] [] []); reflexivity.
Defined.

(** C7, as the claim has it, fails: when the Git locator rejects, the
    chain yields no sequence and nothing is shown, although the
    IDE-workspace source found B and the catalog holds A. *)
Lemma git_failure_stalls_listing :
  locateFails Demo.hostGitFails Git
  /\ promise_value (collectFolders Demo.hostGitFails (ProjectStorage.map_ Demo.catalog)
                                   Demo.allSources) = None
  /\ listProjects Demo.hostGitFails Demo.catalog [] Demo.allSources = NothingShown.
Proof. repeat split. Qed.

(** C7, amended.  When the locator call of an enabled discovery source
    fails (it throws, or its promise rejects or never settles), the chain
    yields no sequence and [listProjects] shows nothing: no empty result
    stands in for the failed source. *)
Theorem failed_source_stalls_listing (host : Host) (projectList : list Project)
    (aStack : list string) (sources : list ProjectsSource) (source : ProjectsSource) :
  source ∈ sources ->
  source <> Projects ->
  locateFails host source ->
  promise_value (collectFolders host (ProjectStorage.map_ projectList) sources) = None
  /\ listProjects host projectList aStack sources = NothingShown.
Proof.
  intros Hin Hsrc Hfail.
  assert (contribution host sources source = None) as Hnone.
  { unfold contribution. rewrite bool_decide_eq_true_2 by exact Hin.
    unfold locateFails in Hfail.
    destruct (locateProjectsOf host source) as [[?|?|]|]; [contradiction | reflexivity..]. }
  assert (promise_value (collectFolders host (ProjectStorage.map_ projectList) sources) = None)
    as Hvalue.
  { rewrite collectFolders_value.
    destruct source; [contradiction| | |]; rewrite Hnone;
      repeat match goal with |- context [contribution ?h ?s ?k] =>
               destruct (contribution h s k) end; reflexivity. }
  split; [exact Hvalue|].
  unfold listProjects.
  destruct (collectFolders host (ProjectStorage.map_ projectList) sources);
    [discriminate Hvalue | reflexivity | reflexivity].
Qed.

Lemma failed_source_stalls_listing_witness :
  listProjects Demo.hostGitFails Demo.catalog [] Demo.allSources = NothingShown.
Proof.
  apply (failed_source_stalls_listing Demo.hostGitFails Demo.catalog [] Demo.allSources Git).
  - vm_compute. do 2 right. left.
  - discriminate.
  - exact I.
Defined.

(** ** The filter/annotate stage *)

Section FilterAnnotate.

Variable host : Host.

Lemma expandItem_lookup (sigma : Store) (x r : nat) :
  expandItem host sigma x !! r
  = if decide (x = r) then expandedItem host <$> sigma !! r else sigma !! r.
Proof.
  unfold expandItem. rewrite lookup_alter.
  destruct (decide (x = r)) as [->|_]; reflexivity.
Qed.

(** Expansion rewrites an object once for each time the array refers to
    it, and no other object. *)
Lemma expandHomePaths_lookup (sigma : Store) (items : list nat) (r : nat) :
  (expandHomePaths host sigma items).1 !! r
  = Nat.iter (count_occ Nat.eq_dec items r) (expandedItem host) <$> sigma !! r.
Proof.
  unfold expandHomePaths. cbn [fst].
  revert sigma. induction items as [|x items IH]; intros sigma.
  - cbn. destruct (sigma !! r); reflexivity.
  - cbn [foldl count_occ]. rewrite IH, expandItem_lookup.
    destruct (Nat.eq_dec x r) as [->|Hne].
    + rewrite decide_True by reflexivity.
      destruct (sigma !! r) as [item|]; [|reflexivity].
      cbn [fmap option_fmap option_map]. rewrite Nat.iter_succ_r. reflexivity.
    + rewrite decide_False by exact Hne. reflexivity.
Qed.

Lemma iter_expandedItem (n : nat) (item : Item) :
  Nat.iter n (expandedItem host) item
  = set_description (Nat.iter n (expandHomePath host) (description item)) item.
Proof.
  induction n as [|n IH]; [destruct item; reflexivity|].
  rewrite !Nat.iter_succ, IH. reflexivity.
Qed.

Lemma checkedItem_idem (element : Item) :
  checkedItem host (checkedItem host element) = checkedItem host element.
Proof.
  unfold checkedItem.
  destruct (negb (JS.truthy (detail element)) && negb (existsSync host (description element)))
    eqn:E; [reflexivity|].
  rewrite E. reflexivity.
Qed.

Lemma flagInvalid_lookup (sigma : Store) (x r : nat) :
  flagInvalid host sigma x !! r
  = if decide (x = r) then checkedItem host <$> sigma !! r else sigma !! r.
Proof.
  unfold flagInvalid.
  destruct (decide (x = r)) as [->|Hne].
  - destruct (sigma !! r) as [element|] eqn:E; [|rewrite E; reflexivity].
    cbn [fmap option_fmap option_map]. unfold checkedItem.
    destruct (negb (JS.truthy (detail element)) && negb (existsSync host (description element)));
      [rewrite lookup_insert_eq | rewrite E]; reflexivity.
  - destruct (sigma !! x) as [element|]; [|reflexivity].
    destruct (negb (JS.truthy (detail element)) && negb (existsSync host (description element)));
      [rewrite lookup_insert_ne by exact Hne|]; reflexivity.
Qed.

(** The check touches the objects the array refers to, and no other. *)
Lemma indicateInvalidPaths_lookup (sigma : Store) (items : list nat) (r : nat) :
  (indicateInvalidPaths host sigma items).1 !! r
  = if decide (r ∈ items) then checkedItem host <$> sigma !! r else sigma !! r.
Proof.
  unfold indicateInvalidPaths. cbn [fst].
  revert sigma. induction items as [|x items IH]; intros sigma.
  - rewrite decide_False by apply not_elem_of_nil. reflexivity.
  - cbn [foldl]. rewrite IH, flagInvalid_lookup.
    destruct (decide (x = r)) as [->|Hne].
    + rewrite (decide_True (P := r ∈ r :: items)) by apply list_elem_of_here.
      destruct (decide (r ∈ items)); [|reflexivity].
      destruct (sigma !! r) as [element|]; [|reflexivity].
      cbn [fmap option_fmap option_map]. rewrite checkedItem_idem. reflexivity.
    + destruct (decide (r ∈ items)) as [Hin|Hout].
      * rewrite decide_True by (apply list_elem_of_further; exact Hin). reflexivity.
      * rewrite decide_False; [reflexivity|].
        rewrite not_elem_of_cons. split; [congruence | exact Hout].
Qed.

Lemma differsFromRoot_spec (sigma : Store) (root : string) (r : nat) :
  differsFromRoot host sigma root r = true <-> ~ locatedAt host sigma root r.
Proof.
  unfold differsFromRoot, locatedAt, sameIgnoringCase.
  destruct (sigma !! r) as [value|].
  - destruct (String.eqb_spec (toLowerCase host (description value)) (toLowerCase host root))
      as [E|E]; cbn [negb]; split.
    + discriminate.
    + intros H. exfalso. apply H. exists value. split; [reflexivity | exact E].
    + intros _ (v & Hv & He). injection Hv as <-. contradiction.
    + reflexivity.
  - split; [intros _ (v & Hv & _); discriminate | reflexivity].
Qed.

Lemma removeRootPath_known (sigma : Store) (items : list nat) (root : string) :
  rootPath host = Some root -> root <> EmptyString ->
  removeRootPath host sigma items
  = filter (fun r => ~ locatedAt host sigma root r) items.
Proof.
  intros Hroot Hne. unfold removeRootPath. rewrite Hroot.
  destruct root as [|c root]; [contradiction|]. cbn [JS.truthy negb].
  induction items as [|x items IH]; [reflexivity|].
  cbn [List.filter]. rewrite filter_cons, IH.
  destruct (differsFromRoot host sigma (String c root) x) eqn:E.
  - rewrite decide_True by (apply differsFromRoot_spec; exact E). reflexivity.
  - rewrite decide_False; [reflexivity|].
    intros H. apply differsFromRoot_spec in H. congruence.
Qed.

Lemma removeRootPath_subset (sigma : Store) (items : list nat) (r : nat) :
  r ∈ removeRootPath host sigma items -> r ∈ items.
Proof.
  unfold removeRootPath.
  destruct (negb (JS.truthy (rootPath host))); [exact id|].
  destruct (rootPath host) as [root|]; [|exact id].
  rewrite !list_elem_of_In. intros H. apply List.filter_In in H. exact (proj1 H).
Qed.

End FilterAnnotate.

(** C4.  When the workspace root is known, [removeRootPath] keeps, in
    their order, exactly the entries whose location differs from the root
    when case is ignored, and drops the others; when the root is unknown
    (undefined or empty) it returns the sequence as it is.  In the stage
    the comparison is made after the expansion: an input entry is listed
    exactly when its expanded location differs from the root. *)
Theorem current_root_removed (host : Host) (sigma : Store) (items : list nat) :
  (JS.truthy (rootPath host) = false -> removeRootPath host sigma items = items)
  /\ (forall root, rootPath host = Some root -> root <> EmptyString ->
        removeRootPath host sigma items
        = filter (fun r => ~ locatedAt host sigma root r) items)
  /\ (filterAnnotate host sigma items).2
     = removeRootPath host (expandHomePaths host sigma items).1 items
  /\ (forall root r item,
        rootPath host = Some root -> root <> EmptyString -> sigma !! r = Some item ->
        (r ∈ (filterAnnotate host sigma items).2
         <-> r ∈ items
             /\ ~ sameIgnoringCase host
                    (Nat.iter (count_occ Nat.eq_dec items r) (expandHomePath host)
                              (description item))
                    root)).
Proof.
  split; [|split; [|split]].
  - intros H. unfold removeRootPath. rewrite H. reflexivity.
  - intros root. apply removeRootPath_known.
  - reflexivity.
  - intros root r item Hroot Hne Hr.
    change ((filterAnnotate host sigma items).2)
      with (removeRootPath host (expandHomePaths host sigma items).1 items).
    rewrite (removeRootPath_known host _ items root Hroot Hne), list_elem_of_filter.
    unfold locatedAt.
    rewrite expandHomePaths_lookup, Hr. cbn [fmap option_fmap option_map].
    rewrite iter_expandedItem.
    split.
    + intros [Hkeep Hin]. split; [exact Hin|].
      intros Hsame. apply Hkeep. eexists. split; [reflexivity | exact Hsame].
    + intros [Hin Hdiffers]. split; [|exact Hin].
      intros (value & Hvalue & Hsame). injection Hvalue as <-. apply Hdiffers. exact Hsame.
Qed.

Lemma current_root_removed_witness :
  removeRootPath Demo.host Demo.entries [0; 1; 2; 3]%nat = [1; 2; 3]%nat
  /\ removeRootPath Demo.hostNoRoot Demo.entries [0; 1; 2; 3]%nat = [0; 1; 2; 3]%nat.
Proof.
  split.
  - destruct (current_root_removed Demo.host Demo.entries [0; 1; 2; 3]%nat) as (_ & Hknown & _).
    rewrite (Hknown "/p" eq_refl) by discriminate. vm_compute. reflexivity.
  - exact (proj1 (current_root_removed Demo.hostNoRoot Demo.entries [0; 1; 2; 3]%nat) eq_refl).
Defined.

(** C5.  [indicateInvalidPaths] returns the array it was given.  An
    entry of it that has no detail (the code's test [!element.detail]:
    undefined or empty) gets the invalid-path marker as its detail when
    its location does not exist, and only then; when the location exists
    the entry stays as it was.  An entry that has a detail stays as it
    was. *)
Theorem invalid_paths_flagged (host : Host) (sigma : Store) (items : list nat)
    (r : nat) (element : Item) :
  sigma !! r = Some element ->
  r ∈ items ->
  (indicateInvalidPaths host sigma items).2 = items
  /\ (JS.truthy (detail element) = false ->
        (existsSync host (description element) = false ->
           (indicateInvalidPaths host sigma items).1 !! r
           = Some (set_detail (Some invalidPathMarker) element))
        /\ (existsSync host (description element) = true ->
           (indicateInvalidPaths host sigma items).1 !! r = Some element)
        /\ ((indicateInvalidPaths host sigma items).1 !! r
            = Some (set_detail (Some invalidPathMarker) element)
            <-> existsSync host (description element) = false))
  /\ (JS.truthy (detail element) = true ->
        (indicateInvalidPaths host sigma items).1 !! r = Some element).
Proof.
  intros Hr Hin.
  rewrite indicateInvalidPaths_lookup, decide_True, Hr by exact Hin.
  cbn [fmap option_fmap option_map]. unfold checkedItem.
  split; [reflexivity|]. split.
  - intros Hno. rewrite Hno. cbn [negb andb].
    destruct (existsSync host (description element)); cbn [negb].
    + split; [discriminate|]. split; [reflexivity|].
      split; [|discriminate].
      intros H. injection H as H. apply (f_equal detail) in H. cbn in H.
      rewrite H in Hno. discriminate Hno.
    + split; [reflexivity|]. split; [discriminate|]. split; reflexivity.
  - intros Hhas. rewrite Hhas. reflexivity.
Qed.

Lemma invalid_paths_flagged_witness :
  (indicateInvalidPaths Demo.host Demo.entries [1; 2; 3]%nat).1 !! 2%nat
  = Some (mkItem "C" "/gone" (Some invalidPathMarker))
  /\ (indicateInvalidPaths Demo.host Demo.entries [1; 2; 3]%nat).1 !! 1%nat
     = Some (mkItem "B" "/q" None)
  /\ (indicateInvalidPaths Demo.host Demo.entries [1; 2; 3]%nat).1 !! 3%nat
     = Some (mkItem "D" "$home/x" (Some "kept")).
Proof.
  split; [|split].
  - destruct (invalid_paths_flagged Demo.host Demo.entries [1; 2; 3]%nat 2%nat
                (mkItem "C" "/gone" None)) as (_ & H & _).
    + reflexivity.
    + vm_compute. right. left.
    + apply H; reflexivity.
  - destruct (invalid_paths_flagged Demo.host Demo.entries [1; 2; 3]%nat 1%nat
                (mkItem "B" "/q" None)) as (_ & H & _).
    + reflexivity.
    + vm_compute. left.
    + apply H; reflexivity.
  - destruct (invalid_paths_flagged Demo.host Demo.entries [1; 2; 3]%nat 3%nat
                (mkItem "D" "$home/x" (Some "kept"))) as (_ & _ & H).
    + reflexivity.
    + vm_compute. do 2 right. left.
    + apply H. reflexivity.
Defined.

(** C8, as the claim has it, fails: the stage overwrites the location of
    an input entry.  The entry D, stored at [$home/x], is an input of the
    stage and is located at [/home/u/x] after it. *)
Lemma stage_rewrites_location :
  description <$> Demo.entries !! 3%nat = Some "$home/x"
  /\ description <$> (filterAnnotate Demo.host Demo.entries [0; 1; 2; 3]%nat).1 !! 3%nat
     = Some "/home/u/x".
Proof. split; vm_compute; reflexivity. Qed.

(** C8, amended.  Through expansion, current-root removal and the
    validity check, an entry object keeps its label; its location is
    overwritten with its home-expanded form, once for each time the input
    array refers to it; its detail changes only to the invalid-path
    marker, and only when the entry passed the current-root removal, had
    no detail and its expanded location does not exist.  An object the
    input array does not refer to is left as it was. *)
Theorem stage_frame (host : Host) (sigma : Store) (items : list nat) (r : nat) (item : Item) :
  sigma !! r = Some item ->
  exists item',
    (filterAnnotate host sigma items).1 !! r = Some item'
    /\ label item' = label item
    /\ description item'
       = Nat.iter (count_occ Nat.eq_dec items r) (expandHomePath host) (description item)
    /\ (detail item' = detail item
        \/ (detail item' = Some invalidPathMarker
            /\ r ∈ removeRootPath host (expandHomePaths host sigma items).1 items
            /\ JS.truthy (detail item) = false
            /\ existsSync host (description item') = false))
    /\ (r ∉ items -> item' = item).
Proof.
  intros Hr. unfold filterAnnotate.
  destruct (expandHomePaths host sigma items) as [sigma1 items1] eqn:E.
  assert (items1 = items) as -> by (unfold expandHomePaths in E; congruence).
  assert (sigma1 = (expandHomePaths host sigma items).1) as Hs1 by (rewrite E; reflexivity).
  rewrite indicateInvalidPaths_lookup.
  assert (sigma1 !! r
          = Some (set_description
                    (Nat.iter (count_occ Nat.eq_dec items r) (expandHomePath host)
                              (description item)) item)) as H1.
  { rewrite Hs1, expandHomePaths_lookup, Hr. cbn [fmap option_fmap option_map].
    rewrite iter_expandedItem. reflexivity. }
  rewrite H1. cbn [fst].
  destruct (decide (r ∈ removeRootPath host sigma1 items)) as [Hin|Hout].
  - cbn [fmap option_fmap option_map]. eexists. split; [reflexivity|].
    unfold checkedItem. cbn [detail description set_description].
    destruct (negb (JS.truthy (detail item))) eqn:Ed; cbn [andb].
    + destruct (existsSync host _) eqn:Ex; cbn [negb].
      * repeat split; try reflexivity; [left; reflexivity|].
        intros Hno. exfalso. apply Hno. eapply removeRootPath_subset, Hin.
      * repeat split; try reflexivity.
        -- right. repeat split; try assumption.
           apply negb_true_iff. exact Ed.
        -- intros Hno. exfalso. apply Hno. eapply removeRootPath_subset, Hin.
    + repeat split; try reflexivity; [left; reflexivity|].
      intros Hno. exfalso. apply Hno. eapply removeRootPath_subset, Hin.
  - eexists. split; [reflexivity|].
    repeat split; try reflexivity; [left; reflexivity|].
    intros Hno.
    assert (count_occ Nat.eq_dec items r = 0%nat) as ->
      by (apply count_occ_not_In; rewrite <- list_elem_of_In; exact Hno).
    destruct item; reflexivity.
Qed.

Lemma stage_frame_witness :
  exists item',
    (filterAnnotate Demo.host Demo.entries [0; 1; 2]%nat).1 !! 2%nat = Some item'
    /\ label item' = "C"
    /\ description item' = "/gone".
Proof.
  destruct (stage_frame Demo.host Demo.entries [0; 1; 2]%nat 2%nat (mkItem "C" "/gone" None))
    as (item' & Hlookup & Hlabel & Hdescription & _); [reflexivity|].
  exists item'. split; [exact Hlookup|]. split; [exact Hlabel | exact Hdescription].
Defined.

(** ** Saving a project *)

Section Save.

Variable host : Host.

Lemma exists_elem_of (wanted : string) (projects : list Project) :
  ProjectStorage.exists_ wanted projects = true <-> wanted ∈ map p_name projects.
Proof.
  unfold ProjectStorage.exists_, ProjectStorage.has_name.
  induction projects as [|p projects IH]; cbn [existsb map].
  - split; [discriminate | intros H; inversion H].
  - rewrite orb_true_iff, IH, elem_of_cons.
    destruct (String.eqb_spec (p_name p) wanted) as [E|E]; split; intros [H|H];
      auto; try discriminate; congruence.
Qed.

Lemma updateRootPath_names (n root : string) (projects : list Project) :
  map p_name (ProjectStorage.updateRootPath n root projects) = map p_name projects.
Proof.
  unfold ProjectStorage.updateRootPath.
  induction projects as [|p projects IH]; [reflexivity|].
  cbn [map]. rewrite IH. destruct (ProjectStorage.has_name n p); reflexivity.
Qed.

Lemma updateRootPath_entries (n root : string) (projects : list Project) :
  ProjectStorage.updateRootPath n root projects
  = (fun p => if decide (p_name p = n) then mkProject (p_name p) root (p_group p) else p)
      <$> projects.
Proof.
  unfold ProjectStorage.updateRootPath, ProjectStorage.has_name.
  induction projects as [|p projects IH]; [reflexivity|].
  cbn [map]. rewrite IH, fmap_cons. f_equal.
  destruct (String.eqb_spec (p_name p) n) as [E|E];
    [rewrite decide_True by exact E | rewrite decide_False by exact E]; reflexivity.
Qed.

(** The status bar is all [showStatusBar] touches. *)
Lemma showStatusBar_frame (projectName : option string) (st : ExtState) :
  projectList (showStatusBar host projectName st) = projectList st
  /\ projectsFile (showStatusBar host projectName st) = projectsFile st
  /\ aStack (showStatusBar host projectName st) = aStack st
  /\ recent (showStatusBar host projectName st) = recent st.
Proof.
  unfold showStatusBar.
  destruct (rootPath host) as [[|c p]|]; [repeat split | | repeat split].
  destruct (showProjectNameInStatusBar host); cbn [negb]; [|repeat split].
  destruct (JS.truthy projectName); [repeat split|].
  cbn [set_statusItem projectList].
  destruct (Nat.eqb (length (projectList st)) 0); [repeat split|].
  destruct (ProjectStorage.existsWithRootPath _ _); repeat split.
Qed.

Lemma storeAndConfirm_effect (projectName : string)
    (change : list Project -> list Project) (st : ExtState) :
  projectList (storeAndConfirm host projectName change st) = change (projectList st)
  /\ projectsFile (storeAndConfirm host projectName change st) = change (projectList st)
  /\ aStack (storeAndConfirm host projectName change st)
     = stack_push host projectName (aStack st)
  /\ recent (storeAndConfirm host projectName change st)
     = stack_toString host (stack_push host projectName (aStack st)).
Proof.
  unfold storeAndConfirm.
  match goal with |- context [showStatusBar host ?n ?s] =>
    destruct (showStatusBar_frame n s) as (-> & -> & -> & ->) end.
  repeat split.
Qed.

End Save.

(** C6.  A save with a folder open always ends, and: an empty name changes
    nothing in the catalog, the file, or the recency record; when the
    name is already in the catalog the labels of the catalog stay exactly
    as they were, [Update] replaces the location of the entry with that
    label and nothing else (and pushes the name on the recency stack and
    writes the file), any other answer changes nothing; the catalog grows
    only by one entry whose label was not in it; so labels that were
    unique stay unique. *)
Theorem save_preserves_unique_labels (host : Host) (root : string)
    (typed option_ : option string) (st : ExtState) :
  rootPath host = Some root ->
  exists st',
    saveProject host typed option_ st = Normal st'
    /\ (typed = Some EmptyString ->
        projectList st' = projectList st /\ projectsFile st' = projectsFile st
        /\ aStack st' = aStack st /\ recent st' = recent st)
    /\ (forall projectName,
          typed = Some projectName -> projectName ∈ map p_name (projectList st) ->
          map p_name (projectList st') = map p_name (projectList st)
          /\ (option_ = Some "Update" -> projectName <> EmptyString ->
              projectList st'
              = (fun p => if decide (p_name p = projectName)
                          then mkProject (p_name p) (compactHomePath host root) (p_group p)
                          else p) <$> projectList st
              /\ projectsFile st' = projectList st'
              /\ aStack st' = stack_push host projectName (aStack st)
              /\ recent st' = stack_toString host (aStack st'))
          /\ (option_ <> Some "Update" ->
              projectList st' = projectList st /\ projectsFile st' = projectsFile st
              /\ aStack st' = aStack st /\ recent st' = recent st))
    /\ (projectList st' = projectList st
        \/ map p_name (projectList st') = map p_name (projectList st)
        \/ exists projectName,
             typed = Some projectName /\ (projectName ∉ map p_name (projectList st))
             /\ projectList st'
                = (projectList st ++ [mkProject projectName (compactHomePath host root) EmptyString]))
    /\ (NoDup (map p_name (projectList st)) -> NoDup (map p_name (projectList st'))).
Proof.
  intros Hroot. unfold saveProject. rewrite Hroot.
  destruct typed as [projectName|].
  2:{ eexists. split; [reflexivity|]. cbn [show_message projectList projectsFile aStack recent].
      split; [discriminate|]. split; [discriminate|]. split; [left; reflexivity|]. exact id. }
  destruct (String.eqb_spec projectName EmptyString) as [->|Hname].
  { eexists. split; [reflexivity|]. cbn [show_message projectList projectsFile aStack recent].
    split; [repeat split|]. split.
    - intros n Hn _. injection Hn as <-. split; [reflexivity|].
      split; [intros _ Hne; contradiction | repeat split].
    - split; [left; reflexivity | exact id]. }
  cbn [show_message projectList].
  destruct (ProjectStorage.exists_ projectName (projectList st)) eqn:Hex; cbn [negb].
  - (* the name is in the catalog *)
    apply exists_elem_of in Hex.
    assert (option_ = Some "Update" \/ option_ <> Some "Update") as [->|Hother]
      by (destruct (decide (option_ = Some "Update")); auto).
    + cbn [String.eqb Ascii.eqb Bool.eqb andb].
      eexists. split; [reflexivity|].
      match goal with |- context [storeAndConfirm host ?n ?c ?s] =>
        destruct (storeAndConfirm_effect host n c s) as (-> & -> & -> & ->) end.
      cbn [projectList aStack]. rewrite updateRootPath_names.
      split; [intros H; congruence|]. split.
      * intros n Hn _. injection Hn as <-. split; [reflexivity|]. split.
        -- intros _ _. rewrite updateRootPath_entries. repeat split.
        -- intros H. contradiction.
      * split; [right; left; reflexivity | exact id].
    + assert (exists st', match option_ with
                          | Some title =>
                              if String.eqb title "Update"
                              then Normal (storeAndConfirm host projectName
                                     (ProjectStorage.updateRootPath projectName
                                        (compactHomePath host root))
                                     (show_message (InfoMessage "Project already exists!")
                                        (show_message (InputBox (suggestedName host root)) st)))
                              else Normal (show_message (InfoMessage "Project already exists!")
                                     (show_message (InputBox (suggestedName host root)) st))
                          | None => Normal (show_message (InfoMessage "Project already exists!")
                                     (show_message (InputBox (suggestedName host root)) st))
                          end = Normal st'
                          /\ projectList st' = projectList st
                          /\ projectsFile st' = projectsFile st
                          /\ aStack st' = aStack st /\ recent st' = recent st)
        as (st' & -> & Hl & Hf & Hs & Hr).
      { destruct option_ as [title|]; [|eexists; repeat split].
        destruct (String.eqb_spec title "Update") as [->|_]; [contradiction|].
        eexists; repeat split. }
      exists st'. split; [reflexivity|]. rewrite Hl, Hf, Hs, Hr.
      split; [repeat split|]. split.
      * intros n _ _. split; [reflexivity|].
        split; [intros H; contradiction | repeat split].
      * split; [left; reflexivity | exact id].
  - (* the name is new *)
    assert (projectName ∉ map p_name (projectList st)) as Hnew.
    { intros H. apply exists_elem_of in H. congruence. }
    eexists. split; [reflexivity|].
    match goal with |- context [storeAndConfirm host ?n ?c ?s] =>
      destruct (storeAndConfirm_effect host n c s) as (-> & -> & -> & ->) end.
    cbn [projectList aStack]. unfold ProjectStorage.push.
    split; [intros H; congruence|]. split.
    + intros n Hn Hin. injection Hn as <-. contradiction.
    + split.
      * right. right. exists projectName. repeat split; [exact Hnew].
      * intros Hnodup. rewrite map_app. apply NoDup_app. split; [exact Hnodup|].
        split; [|apply NoDup_singleton].
        intros x Hx Hx'. cbn in Hx'. apply list_elem_of_singleton in Hx'. subst x.
        contradiction.
Qed.

Lemma save_preserves_unique_labels_witness :
  exists st',
    saveProject Demo.host (Some "A") (Some "Update") Demo.state = Normal st'
    /\ map p_name (projectList st') = ["A"]
    /\ projectList st' = [mkProject "A" "/p" EmptyString].
Proof.
  destruct (save_preserves_unique_labels Demo.host "/p" (Some "A") (Some "Update") Demo.state
              eq_refl) as (st' & Hsave & _ & Hexists & _).
  destruct (Hexists "A" eq_refl) as (Hnames & Hupdate & _); [vm_compute; left|].
  exists st'. split; [exact Hsave|]. split; [exact Hnames|].
  apply Hupdate; [reflexivity | discriminate].
Defined.

(** ** The stage and the listing on examples *)

(** Saving a new name appends one entry and records it. *)
Example save_new_project :
  saveProject Demo.host (Some "P") None Demo.state
  = Normal (mkExtState [mkProject "A" "/x" EmptyString; mkProject "P" "/p" EmptyString]
                       [mkProject "A" "/x" EmptyString; mkProject "P" "/p" EmptyString]
                       ["P"] "P"
                       (Some (mkStatusItem "$(file-directory) P" "/p"
                                           "projectManager.listProjectsNewWindow" true))
                       [InputBox "p"; InfoMessage "Project saved!"]).
Proof. reflexivity. Qed.

(** Entries A at [/p] and B at [/q] with the folder [/p] open: only B is
    listed. *)
Example current_root_excluded :
  let '(sigma, refs) := allocate [mkItem "A" "/p" None; mkItem "B" "/q" None] in
  let '(sigma', shown) := sortProjectList Demo.host [] sigma refs in
  readItems sigma' shown = [mkItem "B" "/q" None].
Proof. vm_compute. reflexivity. Qed.

(** The whole listing on the demonstration host: the discovered entry
    first, then the catalog's. *)
Example listing_on_demo_host :
  match listProjects Demo.host Demo.catalog [] Demo.allSources with
  | QuickPick sigma entries =>
      readItems sigma entries = [mkItem "$(file-code) B" "/y" None; mkItem "A" "/x" None]
  | _ => False
  end.
Proof. vm_compute. reflexivity. Qed.

(** A path under a home directory without substitution patterns survives
    compaction and expansion. *)
Example roundtrip_on_demo_host :
  expandHomePath Demo.host (compactHomePath Demo.host "/home/u/work/p") = "/home/u/work/p".
Proof. apply expand_compact_literal_home; reflexivity. Qed.

(** * Further properties of the code *)

(** ** Path portability, both ways *)

Section PortablePaths.

Variable host : Host.

Lemma prefix_head_differs (c d : ascii) (p s : string) :
  c <> d -> String.prefix (String c p) (String d s) = false.
Proof. intros H. cbn [String.prefix]. destruct (ascii_dec c d); [contradiction | reflexivity]. Qed.

Lemma GetSubstitution_head (matched before after : string) (c : ascii) (template : string) :
  c <> "$"%char ->
  JS.GetSubstitution matched before after (String c template)
  = String c (JS.GetSubstitution matched before after template).
Proof.
  intros H. cbn [JS.GetSubstitution].
  destruct (Ascii.eqb_spec c "$"); [contradiction | reflexivity].
Qed.

Lemma indexOf_nonzero (s needle : string) :
  String.prefix needle s = false -> JS.indexOf s needle <> 0.
Proof. intros H E. apply indexOf_zero in E. congruence. Qed.

End PortablePaths.

(** X1.  When the home directory begins with a character other than [$],
    expanding an expanded path changes nothing more. *)
Theorem expandHomePath_idempotent (host : Host) (c : ascii) (home path : string) :
  homeDir host = String c home ->
  c <> "$"%char ->
  expandHomePath host (expandHomePath host path) = expandHomePath host path.
Proof.
  intros Hhome Hc.
  destruct (Z.eq_dec (JS.indexOf path homePathVariable) 0) as [Hat|Hno].
  - apply indexOf_zero, prefix_inv in Hat as [rest ->].
    rewrite expandHomePath_portable, Hhome, GetSubstitution_head by exact Hc.
    apply expandHomePath_elsewhere, indexOf_nonzero.
    apply prefix_head_differs. congruence.
  - rewrite !(expandHomePath_elsewhere host path Hno). reflexivity.
Qed.

Lemma expandHomePath_idempotent_witness :
  expandHomePath Demo.host (expandHomePath Demo.host "$home/$home")
  = expandHomePath Demo.host "$home/$home".
Proof.
  apply (expandHomePath_idempotent Demo.host "/" "home/u"); [reflexivity | discriminate].
Defined.

(** X2.  When the home directory begins with a character other than [$],
    compacting a compacted path changes nothing more. *)
Theorem compactHomePath_idempotent (host : Host) (c : ascii) (home path : string) :
  homeDir host = String c home ->
  c <> "$"%char ->
  compactHomePath host (compactHomePath host path) = compactHomePath host path.
Proof.
  intros Hhome Hc.
  destruct (Z.eq_dec (JS.indexOf path (homeDir host)) 0) as [Hat|Hno].
  - apply indexOf_zero, prefix_inv in Hat as [rest ->].
    rewrite compactHomePath_under_home.
    apply compactHomePath_elsewhere, indexOf_nonzero.
    rewrite Hhome. apply prefix_head_differs. exact Hc.
  - rewrite !(compactHomePath_elsewhere host path Hno). reflexivity.
Qed.

Lemma compactHomePath_idempotent_witness :
  compactHomePath Demo.host (compactHomePath Demo.host "/home/u/p")
  = compactHomePath Demo.host "/home/u/p".
Proof.
  apply (compactHomePath_idempotent Demo.host "/" "home/u"); [reflexivity | discriminate].
Defined.

(** X3.  When the home directory holds no substitution pattern, compacting
    an expanded path gives the path back, for a path in portable form and
    for a path that has the home directory nowhere at its front. *)
Theorem compact_expand_roundtrip (host : Host) (path : string) :
  isLiteralTemplate (homeDir host) = true ->
  JS.indexOf path homePathVariable = 0 \/ JS.indexOf path (homeDir host) <> 0 ->
  compactHomePath host (expandHomePath host path) = path.
Proof.
  intros Hlit Hpath.
  destruct (Z.eq_dec (JS.indexOf path homePathVariable) 0) as [Hat|Hno].
  - apply indexOf_zero, prefix_inv in Hat as [rest ->].
    rewrite expandHomePath_portable, GetSubstitution_literal by exact Hlit.
    apply compactHomePath_under_home.
  - destruct Hpath as [Hat|Hout]; [contradiction|].
    rewrite (expandHomePath_elsewhere host path Hno).
    apply compactHomePath_elsewhere, Hout.
Qed.

Lemma compact_expand_roundtrip_witness :
  compactHomePath Demo.host (expandHomePath Demo.host "$home/work") = "$home/work".
Proof.
  apply compact_expand_roundtrip; [reflexivity | left; reflexivity].
Defined.

(** ** Normalisation, the suggested name and the channel *)

Section MoreStringFacts.

Lemma append_empty (s : string) : EmptyString +:+ s = s.
Proof. reflexivity. Qed.

Lemma append_String (c : ascii) (s t : string) : String c s +:+ t = String c (s +:+ t).
Proof. reflexivity. Qed.

Lemma doubleBackslashes_length (s : string) :
  (String.length s <= String.length (doubleBackslashes s))%nat.
Proof.
  induction s as [|c s IH]; [reflexivity|].
  cbn [doubleBackslashes]. destruct (Ascii.eqb c JS.backslash); cbn [String.length]; lia.
Qed.

Lemma doubleBackslashes_fixed (s : string) :
  doubleBackslashes s = s <-> hasBackslash s = false.
Proof.
  induction s as [|c s IH]; [split; reflexivity|].
  cbn [doubleBackslashes hasBackslash].
  destruct (Ascii.eqb c JS.backslash); cbn [orb].
  - split; [|discriminate].
    intros H. injection H as _ H. apply (f_equal String.length) in H.
    pose proof (doubleBackslashes_length s). cbn [String.length] in H. lia.
  - rewrite <- IH. split; [intros H; injection H as H; exact H | intros ->; reflexivity].
Qed.

Lemma normalizePath_cases (path : string) :
  normalizePath path = if pathIsUNC path then path else doubleBackslashes path.
Proof.
  unfold normalizePath. destruct (pathIsUNC path); cbn [negb]; [reflexivity|].
  cbn [JS.split JS.oneBackslash]. apply join_split_backslash.
Qed.

Lemma prefix_single (c : ascii) (s : string) :
  String.prefix (String c EmptyString) s
  = match s with
    | EmptyString => false
    | String d _ => Ascii.eqb d c
    end.
Proof.
  destruct s as [|d s]; [reflexivity|]. cbn [String.prefix].
  destruct (ascii_dec c d) as [->|Hne].
  - rewrite Ascii.eqb_refl. destruct s; reflexivity.
  - symmetry. apply Ascii.eqb_neq. congruence.
Qed.

(** A separator that does not occur is not found. *)
Lemma lastIndexOf_from_absent (c : ascii) (s : string) (i best : Z) :
  hasChar c s = false ->
  JS.lastIndexOf_from (String c EmptyString) s i best = best.
Proof.
  revert i best. induction s as [|d s IH]; intros i best H.
  - reflexivity.
  - cbn [hasChar] in H. apply orb_false_iff in H as [Hd Hs].
    cbn [JS.lastIndexOf_from]. rewrite prefix_single, Hd. apply IH, Hs.
Qed.

(** The last separator is the one after which no separator follows. *)
Lemma lastIndexOf_from_last (c : ascii) (dir base : string) (i best : Z) :
  hasChar c base = false ->
  JS.lastIndexOf_from (String c EmptyString) (dir +:+ String c base) i best
  = i + Z.of_nat (String.length dir).
Proof.
  intros Hbase. revert i best. induction dir as [|d dir IH]; intros i best.
  - rewrite append_empty. cbn [String.length JS.lastIndexOf_from].
    rewrite prefix_single, Ascii.eqb_refl.
    rewrite lastIndexOf_from_absent by exact Hbase. cbn. lia.
  - rewrite append_String. cbn [JS.lastIndexOf_from String.length]. rewrite IH. lia.
Qed.

Lemma drop_chars_past (dir : string) (c : ascii) (base : string) :
  JS.drop_chars (S (String.length dir)) (dir +:+ String c base) = base.
Proof. induction dir as [|d dir IH]; [reflexivity | exact IH]. Qed.


End MoreStringFacts.



(** X5.  The name suggested when saving is the last component of the
    workspace root: what follows the last separator of the platform (the
    backslash on [win32], the slash elsewhere), and the whole root when it
    holds no separator. *)
Theorem suggestedName_last_component (host : Host) (sep : ascii) (dir base : string) :
  sep = (if String.eqb (platform host) "win32" then JS.backslash else "/"%char) ->
  hasChar sep base = false ->
  suggestedName host (dir +:+ String sep base) = base
  /\ suggestedName host base = base.
Proof.
  intros Hsep Hbase. unfold suggestedName, JS.lastIndexOf, JS.substr, JS.oneBackslash.
  change "/" with (String "/"%char EmptyString).
  destruct (String.eqb (platform host) "win32"); subst sep;
    rewrite lastIndexOf_from_last, lastIndexOf_from_absent by exact Hbase;
    (split; [|reflexivity]);
    replace (Z.to_nat (0 + Z.of_nat (String.length dir) + 1)) with (S (String.length dir))
      by lia; apply drop_chars_past.
Qed.

Lemma suggestedName_last_component_witness :
  suggestedName Demo.host "/home/u/work/app" = "app".
Proof.
  apply (suggestedName_last_component Demo.host "/" "/home/u/work" "app"); reflexivity.
Defined.



(** ** The stage as a whole *)

Section StageFacts.

Variable host : Host.

Lemma filter_sublist (f : nat -> bool) (l : list nat) : sublist (List.filter f l) l.
Proof.
  induction l as [|x l IH]; [constructor|].
  cbn [List.filter]. destruct (f x); [apply sublist_skip | apply sublist_cons]; exact IH.
Qed.

Lemma removeRootPath_sublist (sigma : Store) (items : list nat) :
  sublist (removeRootPath host sigma items) items.
Proof.
  unfold removeRootPath. destruct (negb (JS.truthy (rootPath host))); [reflexivity|].
  destruct (rootPath host); [apply filter_sublist | reflexivity].
Qed.

(** The store the stage ends with, cell by cell. *)
Lemma filterAnnotate_lookup (sigma : Store) (items : list nat) (r : nat) :
  (filterAnnotate host sigma items).1 !! r
  = (if decide (r ∈ (filterAnnotate host sigma items).2)
     then checkedItem host else id)
    <$> (Nat.iter (count_occ Nat.eq_dec items r) (expandedItem host) <$> sigma !! r).
Proof.
  change ((filterAnnotate host sigma items).2)
    with (removeRootPath host (expandHomePaths host sigma items).1 items).
  change ((filterAnnotate host sigma items).1)
    with ((indicateInvalidPaths host (expandHomePaths host sigma items).1
             (removeRootPath host (expandHomePaths host sigma items).1 items)).1).
  rewrite indicateInvalidPaths_lookup, expandHomePaths_lookup.
  destruct (decide (r ∈ removeRootPath host (expandHomePaths host sigma items).1 items));
    [reflexivity|].
  destruct (sigma !! r); reflexivity.
Qed.

Lemma checkedItem_description (element : Item) :
  description (checkedItem host element) = description element.
Proof.
  unfold checkedItem.
  destruct (negb (JS.truthy (detail element)) && negb (existsSync host (description element)));
    reflexivity.
Qed.

(** An entry that comes out of the check without detail exists. *)
Lemma checkedItem_unflagged (element : Item) :
  JS.truthy (detail (checkedItem host element)) = false ->
  existsSync host (description (checkedItem host element)) = true.
Proof.
  rewrite checkedItem_description. unfold checkedItem.
  destruct (JS.truthy (detail element)) eqn:Ed; cbn [negb andb]; [congruence|].
  destruct (existsSync host (description element)); cbn [negb]; [reflexivity | discriminate].
Qed.

End StageFacts.

(** X7.  The stage neither creates nor deletes entry objects, and the
    array it returns is a sub-sequence of the array it was given. *)
Theorem stage_keeps_objects (host : Host) (sigma : Store) (items : list nat) :
  dom (filterAnnotate host sigma items).1 = dom sigma
  /\ sublist (filterAnnotate host sigma items).2 items.
Proof.
  split.
  - apply set_eq. intros r. rewrite !elem_of_dom, filterAnnotate_lookup.
    destruct (sigma !! r); cbn [fmap option_fmap option_map]; split; intros [x Hx]; eauto; discriminate.
  - apply removeRootPath_sublist.
Qed.

(** X8.  After the stage, every listed entry that has no detail is at a
    location that exists. *)
Theorem unflagged_entries_exist (host : Host) (sigma : Store) (items : list nat)
    (r : nat) (item : Item) :
  r ∈ (filterAnnotate host sigma items).2 ->
  (filterAnnotate host sigma items).1 !! r = Some item ->
  JS.truthy (detail item) = false ->
  existsSync host (description item) = true.
Proof.
  intros Hin Hlookup Hdetail.
  rewrite filterAnnotate_lookup, decide_True in Hlookup by exact Hin.
  destruct (sigma !! r) as [item0|]; [|discriminate].
  cbn [fmap option_fmap option_map] in Hlookup. injection Hlookup as <-.
  apply checkedItem_unflagged, Hdetail.
Qed.

Lemma unflagged_entries_exist_witness :
  existsSync Demo.host "/q" = true.
Proof.
  apply (unflagged_entries_exist Demo.host Demo.entries [0; 1; 2; 3]%nat 1%nat
           (mkItem "B" "/q" None)).
  - vm_compute. left.
  - vm_compute. reflexivity.
  - reflexivity.
Defined.

(** X9.  With the workspace root known, no listed entry is located at the
    root in the store the stage ends with. *)
Theorem listed_entries_differ_from_root (host : Host) (sigma : Store) (items : list nat)
    (root : string) (r : nat) :
  rootPath host = Some root ->
  root <> EmptyString ->
  r ∈ (filterAnnotate host sigma items).2 ->
  ~ locatedAt host (filterAnnotate host sigma items).1 root r.
Proof.
  intros Hroot Hne Hin (value & Hvalue & Hsame).
  rewrite filterAnnotate_lookup, decide_True in Hvalue by exact Hin.
  change ((filterAnnotate host sigma items).2)
    with (removeRootPath host (expandHomePaths host sigma items).1 items) in Hin.
  rewrite (removeRootPath_known host _ items root Hroot Hne) in Hin.
  apply list_elem_of_filter in Hin as [Hkeep _]. apply Hkeep.
  unfold locatedAt. rewrite expandHomePaths_lookup.
  destruct (sigma !! r) as [item0|]; [|discriminate].
  cbn [fmap option_fmap option_map] in *. injection Hvalue as <-.
  eexists. split; [reflexivity|].
  unfold sameIgnoringCase in *. rewrite checkedItem_description in Hsame. exact Hsame.
Qed.

Lemma listed_entries_differ_from_root_witness :
  ~ locatedAt Demo.host (filterAnnotate Demo.host Demo.entries [0; 1; 2; 3]%nat).1 "/p" 1%nat.
Proof.
  apply listed_entries_differ_from_root; [reflexivity | discriminate | vm_compute; left].
Defined.

(** X10.  Checking the paths a second time changes nothing. *)
Theorem indicateInvalidPaths_idempotent (host : Host) (sigma : Store) (items : list nat) :
  (indicateInvalidPaths host (indicateInvalidPaths host sigma items).1 items).1
  = (indicateInvalidPaths host sigma items).1.
Proof.
  apply map_eq. intros r. rewrite !indicateInvalidPaths_lookup.
  destruct (decide (r ∈ items)); [|reflexivity].
  destruct (sigma !! r); [|reflexivity].
  cbn [fmap option_fmap option_map]. rewrite checkedItem_idem. reflexivity.
Qed.

(** ** The stage on freshly created entries *)

Section FreshEntries.

Variable host : Host.

Lemma omap_ext_in {A B} (f g : A -> option B) (l : list A) :
  (forall x, In x l -> f x = g x) -> omap f l = omap g l.
Proof.
  induction l as [|x l IH]; intros H; [reflexivity|].
  cbn [omap list_omap]. rewrite (H x (or_introl eq_refl)), IH; [reflexivity|].
  intros y Hy. apply H. right. exact Hy.
Qed.

Lemma filter_map_commute {A B} (f : A -> B) (q : B -> bool) (l : list A) :
  List.filter q (map f l) = map f (List.filter (fun x => q (f x)) l).
Proof.
  induction l as [|x l IH]; [reflexivity|].
  cbn [map List.filter]. rewrite IH. destruct (q (f x)); reflexivity.
Qed.

(** Reading a list through the indices that pass a test is filtering the
    list. *)
Lemma indices_filter_map {A B} (g : A -> B) (p : A -> bool) (l : list A) :
  omap (fun r => g <$> l !! r)
       (List.filter (fun r => match l !! r with Some x => p x | None => true end)
                    (seq 0 (length l)))
  = map g (List.filter p l).
Proof.
  induction l as [|x l IH] using rev_ind; [reflexivity|].
  rewrite length_app, Nat.add_comm. cbn [length Nat.add].
  rewrite seq_S, !List.filter_app, omap_app, map_app. cbn [Nat.add]. f_equal.
  - rewrite <- IH.
    rewrite (List.filter_ext_in
               (fun r => match (l ++ [x]) !! r with Some y => p y | None => true end)
               (fun r => match l !! r with Some y => p y | None => true end)).
    + apply omap_ext_in. intros r Hr. apply List.filter_In in Hr as [Hr _].
      apply in_seq in Hr. rewrite lookup_app_l by lia. reflexivity.
    + intros r Hr. apply in_seq in Hr. rewrite lookup_app_l by lia. reflexivity.
  - cbn [List.filter]. rewrite list_lookup_middle by reflexivity.
    destruct (p x); [|reflexivity].
    cbn [omap list_omap]. rewrite list_lookup_middle by reflexivity. reflexivity.
Qed.

Lemma count_occ_seq (n r : nat) :
  (r < n)%nat -> count_occ Nat.eq_dec (seq 0 n) r = 1%nat.
Proof.
  intros H. apply NoDup_count_occ'; [apply List.seq_NoDup | apply in_seq; lia].
Qed.

(** Expansion of freshly allocated entries, cell by cell. *)
Lemma expand_fresh_lookup (folders : list Item) (r : nat) :
  (expandHomePaths host (allocate folders).1 (allocate folders).2).1 !! r
  = expandedItem host <$> folders !! r.
Proof.
  unfold allocate. cbn [fst snd].
  rewrite expandHomePaths_lookup, lookup_map_seq_0.
  destruct (folders !! r) as [item|] eqn:E; [|reflexivity].
  rewrite count_occ_seq by (apply lookup_lt_Some in E; exact E). reflexivity.
Qed.

Lemma removeRootPath_filter (sigma : Store) (items : list nat) :
  removeRootPath host sigma items
  = List.filter (fun r => match sigma !! r with
                          | Some value => listedBesideRoot host value
                          | None => true
                          end) items.
Proof.
  unfold removeRootPath, listedBesideRoot, differsFromRoot.
  destruct (rootPath host) as [[|c root]|]; cbn [JS.truthy negb].
  - symmetry. apply forallb_filter_id, forallb_forall.
    intros r _. destruct (sigma !! r); reflexivity.
  - reflexivity.
  - symmetry. apply forallb_filter_id, forallb_forall.
    intros r _. destruct (sigma !! r); reflexivity.
Qed.

(** The references the stage returns for freshly allocated entries. *)
Lemma stage_refs_fresh (folders : list Item) :
  (filterAnnotate host (allocate folders).1 (allocate folders).2).2
  = List.filter (fun r => match folders !! r with
                          | Some x => listedBesideRoot host (expandedItem host x)
                          | None => true
                          end) (seq 0 (length folders)).
Proof.
  change ((filterAnnotate host (allocate folders).1 (allocate folders).2).2)
    with (removeRootPath host (expandHomePaths host (allocate folders).1 (allocate folders).2).1
            (allocate folders).2).
  rewrite removeRootPath_filter. cbn [allocate snd].
  apply List.filter_ext. intros r.
  change (seq 0 (length folders)) with (allocate folders).2.
  rewrite expand_fresh_lookup. destruct (folders !! r); reflexivity.
Qed.

End FreshEntries.

(** X11.  On freshly created entries the stage computes, entry by entry,
    what the three steps say: every location is expanded, the entries
    located at the workspace root are dropped, and the remaining entries
    are flagged when they have no detail and their location does not
    exist; order is kept. *)
Theorem stage_on_fresh_entries (host : Host) (folders : list Item) :
  readItems (filterAnnotate host (allocate folders).1 (allocate folders).2).1
            (filterAnnotate host (allocate folders).1 (allocate folders).2).2
  = stageOnEntries host folders.
Proof.
  unfold readItems, stageOnEntries.
  rewrite (omap_ext_in _
             (fun r => (fun x => checkedItem host (expandedItem host x)) <$> folders !! r)).
  - rewrite stage_refs_fresh.
    rewrite (indices_filter_map (fun x => checkedItem host (expandedItem host x))
               (fun x => listedBesideRoot host (expandedItem host x)) folders).
    rewrite filter_map_commute, map_map. reflexivity.
  - intros r Hr. apply list_elem_of_In in Hr.
    rewrite filterAnnotate_lookup, decide_True by exact Hr.
    change (allocate folders).1 with (map_seq 0 folders : Store).
    rewrite lookup_map_seq_0.
    destruct (folders !! r) as [item|] eqn:E; [|reflexivity].
    change (allocate folders).2 with (seq 0 (length folders)).
    rewrite count_occ_seq by (apply lookup_lt_Some in E; exact E). reflexivity.
Qed.

(** ** What the listing shows *)

Section Listing.

Variable host : Host.

Lemma listProjects_fulfilled (projects : list Project) (stack : list string)
    (sources : list ProjectsSource) (folders : list Item) :
  promise_value (collectFolders host (ProjectStorage.map_ projects) sources) = Some folders ->
  listProjects host projects stack sources
  = if Nat.eqb (length folders) 0
    then InformationMessage "No projects saved yet!"
    else QuickPick (filterAnnotate host (allocate folders).1 (allocate folders).2).1
           (SortItemsByCriteria host
              (filterAnnotate host (allocate folders).1 (allocate folders).2).1
              (filterAnnotate host (allocate folders).1 (allocate folders).2).2
              (sortList host) stack).
Proof.
  intros Hvalue. unfold listProjects.
  destruct (collectFolders host (ProjectStorage.map_ projects) sources) as [t v|t e|];
    [|discriminate..].
  injection Hvalue as ->.
  destruct (Nat.eqb (length folders) 0); [reflexivity|].
  unfold sortProjectList. cbn [allocate fst snd].
  destruct (filterAnnotate host (map_seq 0 folders) (seq 0 (length folders))); reflexivity.
Qed.

Lemma filter_none (f : nat -> bool) (l : list nat) :
  (forall x, In x l -> f x = false) -> List.filter f l = [].
Proof.
  induction l as [|x l IH]; intros H; [reflexivity|].
  cbn [List.filter]. rewrite (H x (or_introl eq_refl)). apply IH.
  intros y Hy. apply H. right. exact Hy.
Qed.

End Listing.

(** X12.  When every enabled source answers, the listing shows the
    message that no projects are saved exactly when no source found an
    entry and the catalog, if it is enabled, yields no entry. *)
Theorem no_projects_message (host : Host) (projects : list Project) (stack : list string)
    (sources : list ProjectsSource) (fromVSCode fromGit fromSvn : list Item) :
  contribution host sources VSCode = Some fromVSCode ->
  contribution host sources Git = Some fromGit ->
  contribution host sources Svn = Some fromSvn ->
  (listProjects host projects stack sources = InformationMessage "No projects saved yet!"
   <-> fromSvn = [] /\ fromGit = [] /\ fromVSCode = []
       /\ (Projects ∈ sources -> ProjectStorage.map_ projects = [])).
Proof.
  intros HV HG HS.
  rewrite (listProjects_fulfilled host projects stack sources
             (fromSvn ++ fromGit ++ fromVSCode
              ++ (if bool_decide (Projects ∈ sources)
                  then ProjectStorage.map_ projects else [])))
    by (rewrite collectFolders_value, HV, HG, HS; reflexivity).
  destruct fromSvn as [|x xs]; [|split; [discriminate | intros [H _]; discriminate H]].
  destruct fromGit as [|y ys]; [|split; [discriminate | intros (_ & H & _); discriminate H]].
  destruct fromVSCode as [|z zs];
    [|split; [discriminate | intros (_ & _ & H & _); discriminate H]].
  cbn [app]. destruct (decide (Projects ∈ sources)) as [Hin|Hout].
  - rewrite bool_decide_eq_true_2 by exact Hin.
    destruct (ProjectStorage.map_ projects) as [|p ps]; cbn [length Nat.eqb].
    + split; [intros _; repeat split | reflexivity].
    + split; [discriminate | intros (_ & _ & _ & H); discriminate (H Hin)].
  - rewrite bool_decide_eq_false_2 by exact Hout. cbn [length Nat.eqb].
    split; [intros _; repeat split; intros H; contradiction | reflexivity].
Qed.

Lemma no_projects_message_witness :
  listProjects Demo.host [] [] [Projects; Git; Svn] = InformationMessage "No projects saved yet!".
Proof.
  apply (no_projects_message Demo.host [] [] [Projects; Git; Svn] [] [] []);
    try reflexivity.
  repeat split.
Defined.

(** X13.  The emptiness test comes before the stage: when the chain
    yields entries and all of them are located at the workspace root, the
    quick pick is opened on an empty sequence instead of the message. *)
Theorem only_current_root_listed (host : Host) (projects : list Project) (stack : list string)
    (sources : list ProjectsSource) (folders : list Item) (root : string) :
  promise_value (collectFolders host (ProjectStorage.map_ projects) sources) = Some folders ->
  folders <> [] ->
  rootPath host = Some root ->
  root <> EmptyString ->
  (forall item, In item folders ->
     sameIgnoringCase host (expandHomePath host (description item)) root) ->
  exists sigma,
    listProjects host projects stack sources
    = QuickPick sigma (SortItemsByCriteria host sigma [] (sortList host) stack).
Proof.
  intros Hvalue Hsome Hroot Hne Hall.
  rewrite (listProjects_fulfilled host projects stack sources folders Hvalue).
  destruct folders as [|x folders]; [contradiction|]. cbn [length Nat.eqb].
  eexists. f_equal. f_equal.
  rewrite stage_refs_fresh. apply filter_none. intros r Hr.
  destruct ((x :: folders) !! r) as [item|] eqn:E.
  - assert (In item (x :: folders)) as Hitem
      by (apply list_elem_of_In, list_elem_of_lookup; eauto).
    specialize (Hall item Hitem). unfold sameIgnoringCase in Hall.
    unfold listedBesideRoot. rewrite Hroot. destruct root as [|c root]; [contradiction|].
    cbn [expandedItem set_description description]. rewrite Hall, String.eqb_refl. reflexivity.
  - apply in_seq in Hr. apply lookup_ge_None in E. lia.
Qed.

Lemma only_current_root_listed_witness :
  exists sigma,
    listProjects Demo.host [mkProject "here" "/P" EmptyString] [] [Projects]
    = QuickPick sigma [].
Proof.
  destruct (only_current_root_listed Demo.host [mkProject "here" "/P" EmptyString] []
              [Projects] [mkItem "here" "/P" None] "/p") as [sigma H].
  - reflexivity.
  - discriminate.
  - reflexivity.
  - discriminate.
  - intros item [<-|[]]. reflexivity.
  - exists sigma. exact H.
Defined.

(** ** The persisted state across a save and a selection *)

Section Persisted.

Variable host : Host.

Lemma showStatusBar_named (n : string) (root : string) (st : ExtState) :
  rootPath host = Some root -> root <> EmptyString -> n <> EmptyString ->
  statusItem (showStatusBar host (Some n) st)
  = if showProjectNameInStatusBar host
    then Some (mkStatusItem ("$(file-directory) " +:+ n) root
                 (if openInNewWindow host then "projectManager.listProjectsNewWindow"
                  else "projectManager.listProjects") true)
    else statusItem st.
Proof.
  intros Hroot Hne Hn. unfold showStatusBar. rewrite Hroot.
  destruct root as [|c root]; [contradiction|].
  destruct n as [|d n]; [contradiction|].
  destruct (showProjectNameInStatusBar host); reflexivity.
Qed.

(** The outcome of a save that goes through to the catalog. *)
Lemma saveProject_stored (root n : string) (option_ : option string) (st : ExtState) :
  rootPath host = Some root -> n <> EmptyString ->
  n ∉ map p_name (projectList st) \/ option_ = Some "Update" ->
  exists change,
    saveProject host (Some n) option_ st
    = Normal (storeAndConfirm host n change
                (if ProjectStorage.exists_ n (projectList st)
                 then show_message (InfoMessage "Project already exists!")
                        (show_message (InputBox (suggestedName host root)) st)
                 else show_message (InputBox (suggestedName host root)) st)).
Proof.
  intros Hroot Hn Hgo. unfold saveProject. rewrite Hroot.
  destruct (String.eqb_spec n EmptyString) as [->|_]; [contradiction|].
  cbn [show_message projectList].
  destruct (ProjectStorage.exists_ n (projectList st)) eqn:Hex; cbn [negb].
  - destruct Hgo as [Hnew | ->].
    + exfalso. apply Hnew, exists_elem_of, Hex.
    + eexists. reflexivity.
  - eexists. reflexivity.
Qed.

Lemma normalizePath_no_backslash (path : string) :
  hasBackslash path = false -> normalizePath path = path.
Proof.
  intros H. rewrite normalizePath_cases.
  destruct (pathIsUNC path); [reflexivity | apply doubleBackslashes_fixed, H].
Qed.

End Persisted.



(** X15.  After a save that stores the project (a new name, or an
    existing one with [Update]), the status bar shows the folder icon and
    the name, with the workspace root as tooltip, when the option to show
    the name is on; when it is off the status bar is left as it was. *)
Theorem status_bar_after_save (host : Host) (root projectName : string)
    (option_ : option string) (st : ExtState) :
  rootPath host = Some root ->
  root <> EmptyString ->
  projectName <> EmptyString ->
  projectName ∉ map p_name (projectList st) \/ option_ = Some "Update" ->
  exists st',
    saveProject host (Some projectName) option_ st = Normal st'
    /\ statusItem st'
       = if showProjectNameInStatusBar host
         then Some (mkStatusItem ("$(file-directory) " +:+ projectName) root
                      (if openInNewWindow host then "projectManager.listProjectsNewWindow"
                       else "projectManager.listProjects") true)
         else statusItem st.
Proof.
  intros Hroot Hne Hn Hgo.
  destruct (saveProject_stored host root projectName option_ st Hroot Hn Hgo) as [change ->].
  eexists. split; [reflexivity|].
  unfold storeAndConfirm. rewrite (showStatusBar_named host projectName root _ Hroot Hne Hn).
  destruct (showProjectNameInStatusBar host); [reflexivity|].
  destruct (ProjectStorage.exists_ projectName (projectList st)); reflexivity.
Qed.

Lemma status_bar_after_save_witness :
  exists st',
    saveProject Demo.host (Some "P") None Demo.state = Normal st'
    /\ statusItem st'
       = Some (mkStatusItem "$(file-directory) P" "/p"
                            "projectManager.listProjectsNewWindow" true).
Proof.
  apply (status_bar_after_save Demo.host "/p" "P" None Demo.state);
    [reflexivity | discriminate | discriminate |].
  left. vm_compute. intros H. inversion H as [|? ? ? H']; inversion H'.
Defined.

(** X16.  The selection handler asks to open a folder exactly when an
    entry was picked and its location exists; the folder is then the
    normalised location (the location itself when it holds no backslash),
    and it opens in a new window when the option says so or when the
    command forces it. *)
Theorem onResolve_opens_existing (host : Host) (pop : Item -> list Project -> list Project)
    (forceNewWindow opened : bool) (selected : option Item) (option_ : option string)
    (st : ExtState) (uri : string) (newWindow : bool) :
  In (OpenFolder uri newWindow)
     (onResolve host pop forceNewWindow selected option_ opened st).2
  <-> exists picked,
        selected = Some picked
        /\ existsSync host (description picked) = true
        /\ uri = normalizePath (description picked)
        /\ (hasBackslash (description picked) = false -> uri = description picked)
        /\ newWindow = (openInNewWindow host || forceNewWindow).
Proof.
  unfold onResolve. destruct selected as [picked|].
  - destruct (existsSync host (description picked)) eqn:Ex; cbn [negb snd].
    + split.
      * intros [H|H].
        -- injection H as <- <-. exists picked. repeat split; try assumption.
           intros Hno. apply normalizePath_no_backslash. exact Hno.
        -- destruct opened; [contradiction|]. destruct H as [H|[]]. discriminate H.
      * intros (p & Hp & _ & -> & _ & ->). injection Hp as <-. left. reflexivity.
    + split.
      * intros H. exfalso.
        destruct option_ as [title|]; [destruct (String.eqb title "Update Project")|];
          cbn [snd app] in H; repeat (destruct H as [H|H]; [discriminate H|]); exact H.
      * intros (p & Hp & Hex & _). injection Hp as <-. congruence.
  - cbn [snd]. split; [contradiction | intros (p & Hp & _); discriminate].
Qed.

(** X17.  The selection handler touches the catalog only to remove an
    entry whose location does not exist, and only when the user answers
    the invalid-path message with a button other than [Update Project];
    the catalog file is then written.  It records a use on the recency
    stack only when it opens a folder. *)
Theorem onResolve_frame (host : Host) (pop : Item -> list Project -> list Project)
    (forceNewWindow opened : bool) (selected : option Item) (option_ : option string)
    (st : ExtState) :
  ((projectList (onResolve host pop forceNewWindow selected option_ opened st).1 = projectList st
    /\ projectsFile (onResolve host pop forceNewWindow selected option_ opened st).1
       = projectsFile st)
   \/ exists picked title,
        selected = Some picked /\ existsSync host (description picked) = false
        /\ option_ = Some title /\ title <> "Update Project"
        /\ projectList (onResolve host pop forceNewWindow selected option_ opened st).1
           = pop picked (projectList st)
        /\ projectsFile (onResolve host pop forceNewWindow selected option_ opened st).1
           = pop picked (projectList st))
  /\ (aStack (onResolve host pop forceNewWindow selected option_ opened st).1 = aStack st
      \/ exists picked,
           selected = Some picked /\ existsSync host (description picked) = true
           /\ aStack (onResolve host pop forceNewWindow selected option_ opened st).1
              = stack_push host (label picked) (aStack st)).
Proof.
  unfold onResolve. destruct selected as [picked|]; [|split; left; repeat split].
  destruct (existsSync host (description picked)) eqn:Ex; cbn [negb fst].
  - split; [left; split; reflexivity|]. right. exists picked. repeat split; assumption.
  - split; [|left; destruct option_ as [title|];
               [destruct (String.eqb title "Update Project")|]; reflexivity].
    destruct option_ as [title|]; [|left; split; reflexivity].
    destruct (String.eqb_spec title "Update Project") as [->|Hne]; [left; split; reflexivity|].
    right. exists picked, title. repeat split; assumption.
Qed.

Lemma onResolve_opens_existing_witness :
  In (OpenFolder "/q" true)
     (onResolve Demo.host (fun _ l => l) false (Some (mkItem "B" "/q" None)) None true
                Demo.state).2.
Proof.
  apply onResolve_opens_existing. exists (mkItem "B" "/q" None).
  repeat split; reflexivity.
Defined.

(** X18.  When the home directory holds no substitution pattern, expanding
    a compacted path gives the path back, for a path that has the home
    directory at its front and for a path that is not in portable form. *)
Theorem expand_compact_roundtrip (host : Host) (path : string) :
  isLiteralTemplate (homeDir host) = true ->
  JS.indexOf path (homeDir host) = 0 \/ JS.indexOf path homePathVariable <> 0 ->
  expandHomePath host (compactHomePath host path) = path.
Proof.
  intros Hlit Hpath.
  destruct (Z.eq_dec (JS.indexOf path (homeDir host)) 0) as [Hat|Hno].
  - apply expand_compact_literal_home; assumption.
  - destruct Hpath as [Hat|Hplain]; [contradiction|].
    rewrite (compactHomePath_elsewhere host path Hno).
    apply expandHomePath_elsewhere, Hplain.
Qed.

Lemma expand_compact_roundtrip_witness :
  expandHomePath Demo.host (compactHomePath Demo.host "/home/u/src/app") = "/home/u/src/app".
Proof.
  apply expand_compact_roundtrip; [reflexivity | left; reflexivity].
Defined.

(** X19.  A save with a folder open ends, and it either leaves the catalog
    and its file as they were or writes the file with the catalog it has
    just changed. *)
Theorem save_writes_what_it_changes (host : Host) (root : string)
    (typed option_ : option string) (st : ExtState) :
  rootPath host = Some root ->
  exists st',
    saveProject host typed option_ st = Normal st'
    /\ ((projectList st' = projectList st /\ projectsFile st' = projectsFile st)
        \/ projectsFile st' = projectList st').
Proof.
  intros Hroot. unfold saveProject. rewrite Hroot.
  destruct typed as [n|]; [|eexists; split; [reflexivity | left; split; reflexivity]].
  destruct (String.eqb n EmptyString);
    [eexists; split; [reflexivity | left; split; reflexivity]|].
  cbn [show_message projectList].
  destruct (negb (ProjectStorage.exists_ n (projectList st))).
  - eexists. split; [reflexivity|]. right.
    match goal with |- context [storeAndConfirm host ?m ?c ?s] =>
      destruct (storeAndConfirm_effect host m c s) as (-> & -> & _) end.
    reflexivity.
  - destruct option_ as [title|];
      [|eexists; split; [reflexivity | left; split; reflexivity]].
    destruct (String.eqb title "Update");
      [|eexists; split; [reflexivity | left; split; reflexivity]].
    eexists. split; [reflexivity|]. right.
    match goal with |- context [storeAndConfirm host ?m ?c ?s] =>
      destruct (storeAndConfirm_effect host m c s) as (-> & -> & _) end.
    reflexivity.
Qed.

Lemma save_writes_what_it_changes_witness :
  exists st',
    saveProject Demo.host (Some "P") None Demo.state = Normal st'
    /\ ((projectList st' = projectList Demo.state /\ projectsFile st' = projectsFile Demo.state)
        \/ projectsFile st' = projectList st').
Proof. exact (save_writes_what_it_changes Demo.host "/p" (Some "P") None Demo.state eq_refl). Defined.
